(** * Custom browser actions: the result protocol and the bounded retry

    A shallow embedding of [src/controller/custom_controller.py].  The file
    registers some thirty handlers on the registry of a browser-automation
    framework.  Every handler borrows the browser session, performs one
    driver operation (or a short sequence) and wraps the outcome in an
    [ActionResult].

    The embedding is organised as follows.
    - Python values, [str()], [json.dumps], [json.loads] and base64.
    - A state-and-exception monad over a world that holds the state of the
      external collaborators, the Python lists allocated by handlers and a
      trace of the observable calls made by the code of this file.
    - The handlers, one definition per Python function, with its name.
    - The theorems. *)

From Stdlib Require Import ZArith List String Ascii Bool Lia DecimalString.
From Stdlib Require DecimalFacts DecimalPos.
From Stdlib.Strings Require Import Byte.
Import ListNotations.
Local Open Scope list_scope.
Local Open Scope string_scope.

Set Implicit Arguments.
Set Warnings "-register-all".

(* ================================================================== *)
(** ** Strings *)

(** A Python [str] is modelled as a Rocq [string] whose characters are the
    code points below 256; a Python [bytes] object as a [list byte]. *)

Definition dquote : string := String "034"%char EmptyString.
Definition backslash : string := String "092"%char EmptyString.

(** [str(n)] for an [int]. *)
Definition str_int (z : Z) : string := NilZero.string_of_int (Z.to_int z).

(** [sep.join(parts)]. *)
Fixpoint join (sep : string) (parts : list string) : string :=
  match parts with
  | [] => ""
  | [p] => p
  | p :: rest => p ++ sep ++ join sep rest
  end.

(** [sub in s]. *)
Definition contains (s sub : string) : Prop :=
  exists pre post : string, s = pre ++ sub ++ post.

(* ================================================================== *)
(** ** Exceptions and outcomes *)

(** An exception is kept as its class name and the text [str(e)].  Only
    [Exception] and its subclasses are covered, which is what
    [except Exception] catches.  An interruption by an exception outside
    [Exception] ([asyncio.CancelledError], [KeyboardInterrupt],
    [SystemExit]) is no outcome here: the statements below speak of
    operations that return or raise an [Exception]. *)
Record Exn : Type := mkExn { exn_class : string; exn_str : string }.

Inductive Outcome (A : Type) : Type :=
| Ret (a : A)
| Raise (e : Exn).
Arguments Ret {A} a.
Arguments Raise {A} e.

(** [ActionResult] comes from the framework; the handlers of this file set
    one of two fields and leave the other at its default [None]. *)
Record ActionResult : Type := mkActionResult {
  extracted_content : option string;
  error : option string
}.

(** [ActionResult(extracted_content=s)] *)
Definition Success (s : string) : ActionResult :=
  {| extracted_content := Some s; error := None |}.

(** [ActionResult(error=s)] *)
Definition Failure (s : string) : ActionResult :=
  {| extracted_content := None; error := Some s |}.

Definition is_set {A : Type} (o : option A) : bool :=
  match o with Some _ => true | None => false end.


(* ================================================================== *)
(** ** Python values *)

(** The values that cross the driver boundary: what [page.evaluate] and
    [context.cookies] hand back and what [json.loads] builds.  A [dict]
    keeps its insertion order, hence the association list.  Floats are
    not represented. *)
Inductive PyValue : Type :=
| PNone
| PBool (b : bool)
| PInt (z : Z)
| PStr (s : string)
| PList (items : list PyValue)
| PDict (pairs : list (string * PyValue)).

Definition code (c : ascii) : N := N_of_ascii c.

Definition hex_digit (n : N) : ascii :=
  if (n <? 10)%N then ascii_of_N (48 + n) else ascii_of_N (87 + n).

(** Two lower-case hexadecimal digits, as [format(n, '02x')]. *)
Definition hex2 (n : N) : string :=
  String (hex_digit (n / 16)) (String (hex_digit (n mod 16)) "").

Fixpoint count_char (q : ascii) (s : string) : nat :=
  match s with
  | EmptyString => 0
  | String c r => (if Ascii.eqb c q then 1 else 0) + count_char q r
  end.

(** CPython's [unicode_repr] picks the double quote only when the text
    has a single quote and no double quote. *)
Definition repr_quote (s : string) : ascii :=
  if andb (Nat.ltb 0 (count_char "'"%char s)) (Nat.eqb (count_char "034"%char s) 0)
  then "034"%char else "'"%char.

(** Printable code points below 256, as [str.isprintable] has them. *)
Definition is_printable (n : N) : bool :=
  if (n <? 32)%N then false
  else if (n <? 127)%N then true
  else if (n <? 161)%N then false
  else negb (n =? 173)%N.

Definition repr_char (q c : ascii) : string :=
  let n := code c in
  if orb (Ascii.eqb c q) (Ascii.eqb c "092"%char) then String "092"%char (String c "")
  else if (n =? 9)%N then backslash ++ "t"
  else if (n =? 10)%N then backslash ++ "n"
  else if (n =? 13)%N then backslash ++ "r"
  else if is_printable n then String c ""
  else backslash ++ "x" ++ hex2 n.

Fixpoint repr_body (q : ascii) (s : string) : string :=
  match s with
  | EmptyString => ""
  | String c r => repr_char q c ++ repr_body q r
  end.

(** [repr(s)] for a [str]. *)
Definition repr_str (s : string) : string :=
  let q := repr_quote s in
  String q (repr_body q s ++ String q "").

(** [repr(v)]. *)
Fixpoint py_repr (v : PyValue) : string :=
  match v with
  | PNone => "None"
  | PBool true => "True"
  | PBool false => "False"
  | PInt z => str_int z
  | PStr s => repr_str s
  | PList items => "[" ++ join ", " (map py_repr items) ++ "]"
  | PDict pairs =>
      "{" ++ join ", " (map (fun kv => repr_str (fst kv) ++ ": " ++ py_repr (snd kv)) pairs)
          ++ "}"
  end.

(** [str(v)]: a [str] is returned as it is, every other value by [repr]. *)
Definition py_str (v : PyValue) : string :=
  match v with
  | PStr s => s
  | _ => py_repr v
  end.

(* ------------------------------------------------------------------ *)
(** *** [json.dumps] *)

(** [encode_basestring_ascii] on one character: the default
    [ensure_ascii=True] leaves only [' '..'~'] minus the quote and the
    backslash unescaped. *)
Definition json_escape_char (c : ascii) : string :=
  let n := code c in
  if (n =? 34)%N then backslash ++ dquote
  else if (n =? 92)%N then backslash ++ backslash
  else if (n =? 10)%N then backslash ++ "n"
  else if (n =? 13)%N then backslash ++ "r"
  else if (n =? 9)%N then backslash ++ "t"
  else if (n =? 8)%N then backslash ++ "b"
  else if (n =? 12)%N then backslash ++ "f"
  else if andb (32 <=? n)%N (n <=? 126)%N then String c ""
  else backslash ++ "u00" ++ hex2 n.

Fixpoint json_escape (s : string) : string :=
  match s with
  | EmptyString => ""
  | String c r => json_escape_char c ++ json_escape r
  end.

Definition json_quote (s : string) : string :=
  dquote ++ json_escape s ++ dquote.

(** [json.dumps(v)] with the default separators [", "] and [": "].
    CPython gives up on a nesting deeper than the recursion limit of the
    interpreter and on an integer of more digits than
    [sys.get_int_max_str_digits()]; these limits of the interpreter are
    not part of the function here, nor of the decoder below. *)
Fixpoint json_dumps (v : PyValue) : string :=
  match v with
  | PNone => "null"
  | PBool true => "true"
  | PBool false => "false"
  | PInt z => str_int z
  | PStr s => json_quote s
  | PList items => "[" ++ join ", " (map json_dumps items) ++ "]"
  | PDict pairs =>
      "{" ++ join ", " (map (fun kv => json_quote (fst kv) ++ ": " ++ json_dumps (snd kv)) pairs)
          ++ "}"
  end.

(* ------------------------------------------------------------------ *)
(** *** [json.loads] *)

(** The decoder follows CPython's scanner ([json.decoder], [json.scanner])
    on the value universe above.  Two families of JSON texts are well
    formed for CPython but decode to a value outside that universe:
    numbers with a fraction or an exponent and the constants [NaN],
    [Infinity] and [-Infinity], which decode to floats, and [\uXXXX]
    escapes above [00ff].  The scanner stops at the first such token with
    [Unrepresented], apart from [Invalid], which it keeps for the places
    where CPython raises [JSONDecodeError]. *)

Inductive Scan (A : Type) : Type :=
| Scanned (a : A) (rest : string)
| Invalid
| Exhausted
| Unrepresented.
Arguments Scanned {A} a rest.
Arguments Invalid {A}.
Arguments Exhausted {A}.
Arguments Unrepresented {A}.

Definition is_ws (c : ascii) : bool :=
  let n := code c in
  orb (orb (n =? 32)%N (n =? 9)%N) (orb (n =? 10)%N (n =? 13)%N).

Fixpoint skip_ws (s : string) : string :=
  match s with
  | EmptyString => ""
  | String c r => if is_ws c then skip_ws r else s
  end.

Definition is_digit (c : ascii) : bool :=
  andb (48 <=? code c)%N (code c <=? 57)%N.

Definition hex_value (c : ascii) : option N :=
  let n := code c in
  if andb (48 <=? n)%N (n <=? 57)%N then Some (n - 48)%N
  else if andb (97 <=? n)%N (n <=? 102)%N then Some (n - 87)%N
  else if andb (65 <=? n)%N (n <=? 70)%N then Some (n - 55)%N
  else None.

Definition hex4 (a b c d : ascii) : option N :=
  match hex_value a, hex_value b, hex_value c, hex_value d with
  | Some x, Some y, Some z, Some t => Some (((x * 16 + y) * 16 + z) * 16 + t)%N
  | _, _, _, _ => None
  end.

(** The character a backslash escape stands for ([BACKSLASH] in
    [json.decoder]). *)
Definition unescape (e : ascii) : option ascii :=
  let n := code e in
  if (n =? 34)%N then Some "034"%char
  else if (n =? 92)%N then Some "092"%char
  else if (n =? 47)%N then Some "/"%char
  else if (n =? 98)%N then Some "008"%char
  else if (n =? 102)%N then Some "012"%char
  else if (n =? 110)%N then Some "010"%char
  else if (n =? 114)%N then Some "013"%char
  else if (n =? 116)%N then Some "009"%char
  else None.

Definition cons_char (c : ascii) (r : Scan string) : Scan string :=
  match r with
  | Scanned t rest => Scanned (String c t) rest
  | Invalid => Invalid
  | Exhausted => Exhausted
  | Unrepresented => Unrepresented
  end.

(** [scanstring], entered after the opening quote, in strict mode: a raw
    control character ends the scan with an error.  An escape [\uXXXX]
    with four hexadecimal digits is well formed; above [00ff] it stands
    for a character that a [string] here cannot hold. *)
Fixpoint scanstring (s : string) : Scan string :=
  match s with
  | EmptyString => Invalid
  | String c r =>
      if (code c =? 34)%N then Scanned "" r
      else if (code c =? 92)%N then
        match r with
        | EmptyString => Invalid
        | String e r1 =>
            if (code e =? 117)%N then
              match r1 with
              | String h1 (String h2 (String h3 (String h4 r2))) =>
                  match hex4 h1 h2 h3 h4 with
                  | Some n =>
                      if (n <? 256)%N then cons_char (ascii_of_N n) (scanstring r2)
                      else Unrepresented
                  | None => Invalid
                  end
              | _ => Invalid
              end
            else
              match unescape e with
              | Some ch => cons_char ch (scanstring r1)
              | None => Invalid
              end
        end
      else if (code c <? 32)%N then Invalid
      else cons_char c (scanstring r)
  end.

Fixpoint scan_digits (s : string) (acc : N) : N * string :=
  match s with
  | EmptyString => (acc, "")
  | String c r =>
      if is_digit c then scan_digits r (10 * acc + (code c - 48))%N else (acc, s)
  end.

Fixpoint strip_prefix (p s : string) : option string :=
  match p with
  | EmptyString => Some s
  | String a p' =>
      match s with
      | EmptyString => None
      | String b s' => if Ascii.eqb a b then strip_prefix p' s' else None
      end
  end.

(** A fraction or an exponent after the integer part makes the number a
    float. *)
Definition float_tail (s : string) : bool :=
  match s with
  | String c (String d r) =>
      if Ascii.eqb c "."%char then is_digit d
      else if orb (Ascii.eqb c "e"%char) (Ascii.eqb c "E"%char) then
        if is_digit d then true
        else if orb (Ascii.eqb d "+"%char) (Ascii.eqb d "-"%char) then
          match r with String g _ => is_digit g | EmptyString => false end
        else false
      else false
  | _ => false
  end.

(** [NUMBER_RE]: an optional minus, then [0] or a digit string without a
    leading zero.  With a fraction or an exponent behind it the match is a
    float. *)
Definition scan_number (s : string) : Scan PyValue :=
  let '(neg, s1) :=
    match s with
    | String c r => if Ascii.eqb c "-"%char then (true, r) else (false, s)
    | EmptyString => (false, s)
    end in
  match s1 with
  | EmptyString => Invalid
  | String c r =>
      if negb (is_digit c) then Invalid
      else
        let '(n, rest) := if Ascii.eqb c "0"%char then (0%N, r) else scan_digits s1 0%N in
        if float_tail rest then Unrepresented
        else Scanned (PInt (if neg then Z.opp (Z.of_N n) else Z.of_N n)) rest
  end.

(** [dict(pairs)]: a repeated key keeps its first position and takes the
    last value. *)
Fixpoint dict_set (k : string) (v : PyValue) (d : list (string * PyValue))
  : list (string * PyValue) :=
  match d with
  | [] => [(k, v)]
  | (k', v') :: d' =>
      if String.eqb k k' then (k, v) :: d' else (k', v') :: dict_set k v d'
  end.

Definition dict_of_pairs (pairs : list (string * PyValue)) : list (string * PyValue) :=
  fold_left (fun d kv => dict_set (fst kv) (snd kv) d) pairs [].

(** [NaN], [Infinity] and [-Infinity], which [scan_once] tries after the
    number. *)
Definition float_constant (s : string) : bool :=
  match strip_prefix "NaN" s, strip_prefix "Infinity" s, strip_prefix "-Infinity" s with
  | None, None, None => false
  | _, _, _ => true
  end.

Definition scan_literal (s : string) : Scan PyValue :=
  match strip_prefix "null" s with
  | Some r => Scanned PNone r
  | None =>
  match strip_prefix "true" s with
  | Some r => Scanned (PBool true) r
  | None =>
  match strip_prefix "false" s with
  | Some r => Scanned (PBool false) r
  | None =>
      match scan_number s with
      | Invalid => if float_constant s then Unrepresented else Invalid
      | scanned => scanned
      end
  end end end.

(** [scan_once], [JSONArray] and [JSONObject].  The fuel bounds the
    recursion; [json_loads] supplies enough of it (see [scan_once_fuel]). *)
Fixpoint scan_once (fuel : nat) (s : string) : Scan PyValue :=
  match fuel with
  | O => Exhausted
  | S f =>
      match s with
      | EmptyString => Invalid
      | String c r =>
          if Ascii.eqb c "034"%char then
            match scanstring r with
            | Scanned t rest => Scanned (PStr t) rest
            | Invalid => Invalid
            | Exhausted => Exhausted
            | Unrepresented => Unrepresented
            end
          else if Ascii.eqb c "["%char then
            match skip_ws r with
            | EmptyString => Invalid
            | String d r1 as r0 =>
                if Ascii.eqb d "]"%char then Scanned (PList []) r1
                else scan_items f r0 []
            end
          else if Ascii.eqb c "{"%char then
            match skip_ws r with
            | EmptyString => Invalid
            | String d r1 =>
                if Ascii.eqb d "}"%char then Scanned (PDict []) r1
                else if Ascii.eqb d "034"%char then scan_pairs f r1 []
                else Invalid
            end
          else scan_literal s
      end
  end

with scan_items (fuel : nat) (s : string) (acc : list PyValue) : Scan PyValue :=
  match fuel with
  | O => Exhausted
  | S f =>
      match scan_once f s with
      | Scanned v r =>
          match skip_ws r with
          | EmptyString => Invalid
          | String d r1 =>
              if Ascii.eqb d "]"%char then Scanned (PList (rev (v :: acc))) r1
              else if Ascii.eqb d ","%char then scan_items f (skip_ws r1) (v :: acc)
              else Invalid
          end
      | Invalid => Invalid
      | Exhausted => Exhausted
      | Unrepresented => Unrepresented
      end
  end

with scan_pairs (fuel : nat) (s : string) (acc : list (string * PyValue)) : Scan PyValue :=
  match fuel with
  | O => Exhausted
  | S f =>
      match scanstring s with
      | Invalid => Invalid
      | Exhausted => Exhausted
      | Unrepresented => Unrepresented
      | Scanned k r =>
          match skip_ws r with
          | EmptyString => Invalid
          | String d r1 =>
              if negb (Ascii.eqb d ":"%char) then Invalid
              else
                match scan_once f (skip_ws r1) with
                | Scanned v r2 =>
                    match skip_ws r2 with
                    | EmptyString => Invalid
                    | String g r3 =>
                        if Ascii.eqb g "}"%char
                        then Scanned (PDict (dict_of_pairs (rev ((k, v) :: acc)))) r3
                        else if Ascii.eqb g ","%char then
                          match skip_ws r3 with
                          | EmptyString => Invalid
                          | String h r4 =>
                              if Ascii.eqb h "034"%char then scan_pairs f r4 ((k, v) :: acc)
                              else Invalid
                          end
                        else Invalid
                    end
                | Invalid => Invalid
                | Exhausted => Exhausted
                | Unrepresented => Unrepresented
                end
          end
      end
  end.

Definition JSONDecodeError : Exn := mkExn "JSONDecodeError" "invalid JSON text".
Definition RecursionError : Exn :=
  mkExn "RecursionError" "maximum recursion depth exceeded".

(** Not an exception of Python: the mark of a text that CPython decodes
    to a value with a float or a character above [U+00FF].  On such a
    text the run of the program leaves the universe of values modelled
    here; the statements about malformed text name [JSONDecodeError]. *)
Definition OutsideUniverse : Exn :=
  mkExn "OutsideUniverse" "the text decodes to a float or to a character above U+00FF".

(** [json.loads(s)] for a [str]: leading white space, one value, trailing
    white space, then the end of the text.  [JSONDecodeError] stands for
    every place where the decoder raises it; the text of its message
    (which names a position) is not reproduced. *)
Definition json_loads (s : string) : Outcome PyValue :=
  let s0 := skip_ws s in
  match scan_once (2 * String.length s0 + 1) s0 with
  | Scanned v rest =>
      match skip_ws rest with
      | EmptyString => Ret v
      | String _ _ => Raise JSONDecodeError
      end
  | Invalid => Raise JSONDecodeError
  | Exhausted => Raise RecursionError
  | Unrepresented => Raise OutsideUniverse
  end.

(* ================================================================== *)
(** ** Bytes, base64 and text codecs *)

Definition byte_of_N (n : N) : byte :=
  match Byte.of_N n with
  | Some b => b
  | None => "000"%byte
  end.

(** The standard base64 alphabet, by sextet value. *)
Definition b64_char (n : N) : byte :=
  if (n <? 26)%N then byte_of_N (65 + n)
  else if (n <? 52)%N then byte_of_N (71 + n)
  else if (n <? 62)%N then byte_of_N (n - 4)
  else if (n =? 62)%N then byte_of_N 43
  else byte_of_N 47.

Definition b64_pad : byte := byte_of_N 61.

(** [base64.b64encode]: three bytes become four characters; a last group
    of one or two bytes is padded with [=]. *)
Fixpoint b64encode (bs : list byte) : list byte :=
  match bs with
  | [] => []
  | [x] =>
      let a := Byte.to_N x in
      [b64_char (a / 4); b64_char ((a mod 4) * 16); b64_pad; b64_pad]
  | [x; y] =>
      let a := Byte.to_N x in
      let b := Byte.to_N y in
      [b64_char (a / 4); b64_char ((a mod 4) * 16 + b / 16);
       b64_char ((b mod 16) * 4); b64_pad]
  | x :: y :: z :: rest =>
      let a := Byte.to_N x in
      let b := Byte.to_N y in
      let c := Byte.to_N z in
      b64_char (a / 4) :: b64_char ((a mod 4) * 16 + b / 16)
        :: b64_char ((b mod 16) * 4 + c / 64) :: b64_char (c mod 64)
        :: b64encode rest
  end%N.

Definition b64_value (ch : byte) : option N :=
  let n := Byte.to_N ch in
  if andb (65 <=? n)%N (n <=? 90)%N then Some (n - 65)%N
  else if andb (97 <=? n)%N (n <=? 122)%N then Some (n - 71)%N
  else if andb (48 <=? n)%N (n <=? 57)%N then Some (n + 4)%N
  else if (n =? 43)%N then Some 62%N
  else if (n =? 47)%N then Some 63%N
  else None.

Definition is_pad (ch : byte) : bool := (Byte.to_N ch =? 61)%N.

(** [base64.b64decode] on well-formed input: groups of four characters,
    padding only in the last group.  Anything else is rejected. *)
Fixpoint b64decode (cs : list byte) : option (list byte) :=
  match cs with
  | [] => Some []
  | c1 :: c2 :: c3 :: c4 :: rest =>
      match b64_value c1, b64_value c2 with
      | Some v1, Some v2 =>
          if andb (is_pad c3) (is_pad c4) then
            match rest with
            | [] => Some [byte_of_N (v1 * 4 + v2 / 16)]
            | _ :: _ => None
            end
          else
            match b64_value c3 with
            | Some v3 =>
                if is_pad c4 then
                  match rest with
                  | [] => Some [byte_of_N (v1 * 4 + v2 / 16);
                                byte_of_N ((v2 mod 16) * 16 + v3 / 4)]
                  | _ :: _ => None
                  end
                else
                  match b64_value c4, b64decode rest with
                  | Some v4, Some tail =>
                      Some (byte_of_N (v1 * 4 + v2 / 16)
                              :: byte_of_N ((v2 mod 16) * 16 + v3 / 4)
                              :: byte_of_N ((v3 mod 4) * 64 + v4) :: tail)
                  | _, _ => None
                  end
            | None => None
            end
      | _, _ => None
      end
  | _ => None
  end%N.

(** [bs.decode("utf-8")] into the strings of this model: one-byte
    sequences and the two-byte sequences of the code points 128..255.  A
    malformed sequence raises [UnicodeDecodeError]; so does, here only, a
    well-formed sequence of a code point above 255. *)
Fixpoint decode_utf8 (bs : list byte) : option string :=
  match bs with
  | [] => Some ""
  | b :: r =>
      let n := Byte.to_N b in
      if (n <? 128)%N then
        match decode_utf8 r with
        | Some t => Some (String (ascii_of_byte b) t)
        | None => None
        end
      else if orb (n =? 194)%N (n =? 195)%N then
        match r with
        | c :: r' =>
            let m := Byte.to_N c in
            if andb (128 <=? m)%N (m <? 192)%N then
              match decode_utf8 r' with
              | Some t => Some (String (ascii_of_N ((n - 192) * 64 + (m - 128))) t)
              | None => None
              end
            else None
        | [] => None
        end
      else None
  end.

(** [s.encode("ascii")], which [b64decode] applies to a [str] argument. *)
Fixpoint encode_ascii (s : string) : option (list byte) :=
  match s with
  | EmptyString => Some []
  | String c r =>
      if (code c <? 128)%N then
        match encode_ascii r with
        | Some bs => Some (byte_of_ascii c :: bs)
        | None => None
        end
      else None
  end.

(** [base64.b64decode(s)] for a [str]. *)
Definition b64decode_str (s : string) : option (list byte) :=
  match encode_ascii s with
  | Some cs => b64decode cs
  | None => None
  end.

Definition data_url_prefix : string := "data:image/png;base64,".

(* ================================================================== *)
(** ** The world outside and the effect monad *)

(** An operation of an external collaborator: it may change the
    collaborator's state and either returns or raises. *)
Definition Op (S A : Type) : Type := S -> Outcome A * S.

(** The lambdas that the handlers register with [page.on]. *)
Inductive Callback : Type :=
| OnDialogAccept                (* lambda dialog: dialog.accept() *)
| OnDialogDismiss               (* lambda dialog: dialog.dismiss() *)
| OnConsoleLog                  (* lambda msg: logger.info(f"Console: {msg.text}") *)
| OnRequestAppend (ref : nat).  (* lambda req: requests.append(req.url) *)

(** The collaborators the file consumes as opaque interfaces: the browser
    driver, the clipboard, the content extractor, the HTTP client and the
    registry of the framework.  [St] is their joint state. *)
Class External : Type := {
  St : Type;
  Page : Type;
  Element : Type;
  DownloadInfo : Type;
  Download : Type;
  ClientSession : Type;
  Response : Type;
  (* pyperclip *)
  pyperclip_copy : string -> Op St unit;
  pyperclip_paste : Op St string;
  (* MainContentExtractor().extract(html) *)
  extractor_extract : string -> Op St string;
  (* browser context and page *)
  get_current_page : Op St Page;
  new_page : Op St Page;
  keyboard_type : Page -> string -> Op St unit;
  screenshot : Page -> bool -> Op St (list byte);
  content : Page -> Op St string;
  wait_for_selector : Page -> string -> Z -> Op St unit;
  evaluate : Page -> string -> Op St PyValue;
  close : Page -> Op St unit;
  page_url : Page -> Op St string;
  goto : Page -> string -> Op St unit;
  click : Page -> string -> Op St unit;
  fill : Page -> string -> PyValue -> Op St unit;
  reload : Page -> Op St unit;
  hover : Page -> string -> Op St unit;
  cookies : Page -> Op St PyValue;
  add_cookies : Page -> PyValue -> Op St unit;
  clear_cache : Page -> Op St unit;
  expect_download_enter : Page -> Op St DownloadInfo;
  expect_download_exit : DownloadInfo -> option Exn -> Op St unit;
  download_value : DownloadInfo -> Op St Download;
  save_as : Download -> string -> Op St unit;
  page_wait_for_navigation : Page -> Z -> Op St unit;
  mouse_move : Page -> Z -> Z -> Op St unit;
  page_on : Page -> string -> Callback -> Op St unit;
  query_selector : Page -> string -> Op St (option Element);
  content_frame : Element -> Op St unit;
  (* aiohttp *)
  import_aiohttp : Op St unit;
  client_session_enter : Op St ClientSession;
  client_session_exit : ClientSession -> option Exn -> Op St unit;
  session_get : ClientSession -> string -> Op St Response;
  session_post : ClientSession -> string -> PyValue -> Op St Response;
  response_text : Response -> Op St string;
  response_exit : Response -> option Exn -> Op St unit;
  (* self.registry.execute_action(action_name, browser) *)
  execute_action : string -> Op St ActionResult
}.

Inductive Level : Type := INFO | WARNING.

(** What the code of this file is seen to do, in order: its logger
    records, its calls of [registry.execute_action] and the HTTP requests
    it starts. *)
Inductive Event : Type :=
| EvLog (level : Level) (msg : string)
| EvExecute (action_name : string)
| EvGet (url : string)
| EvPost (url : string) (body : PyValue).

Section Actions.

Context {X : External}.

(** The world of one invocation: the state of the collaborators, the
    Python lists the handlers allocate (a reference is an index) and the
    trace.  A collaborator's operation acts on [ext] alone. *)
Record World : Type := mkWorld {
  ext : St;
  heap : list (list string);
  events : list Event
}.

Definition M (A : Type) : Type := World -> Outcome A * World.

Definition ret {A : Type} (a : A) : M A := fun w => (Ret a, w).

Definition raise {A : Type} (e : Exn) : M A := fun w => (Raise e, w).

Definition bind {A B : Type} (m : M A) (k : A -> M B) : M B :=
  fun w =>
    match m w with
    | (Ret a, w') => k a w'
    | (Raise e, w') => (Raise e, w')
    end.

(** [try: body  except Exception as e: handler(e)].  Every [Raise]
    carries an instance of [Exception], so the handler takes it. *)
Definition try_except {A : Type} (body : M A) (handler : Exn -> M A) : M A :=
  fun w =>
    match body w with
    | (Ret a, w') => (Ret a, w')
    | (Raise e, w') => handler e w'
    end.

(** A call into a collaborator. *)
Definition call {A : Type} (op : Op St A) : M A :=
  fun w =>
    let '(o, s) := op (ext w) in
    (o, {| ext := s; heap := heap w; events := events w |}).

Definition emit (ev : Event) : M unit :=
  fun w => (Ret tt, {| ext := ext w; heap := heap w; events := (events w ++ [ev])%list |}).

Definition logger_info (msg : string) : M unit := emit (EvLog INFO msg).
Definition logger_warning (msg : string) : M unit := emit (EvLog WARNING msg).

(** [requests = []] *)
Definition new_list : M nat :=
  fun w => (Ret (List.length (heap w)),
            {| ext := ext w; heap := (heap w ++ [[]])%list; events := events w |}).

Definition read_list (ref : nat) : M (list string) :=
  fun w => (Ret (nth ref (heap w) []), w).

Fixpoint heap_append (ref : nat) (x : string) (h : list (list string))
  : list (list string) :=
  match h, ref with
  | [], _ => []
  | l :: h', O => (l ++ [x])%list :: h'
  | l :: h', S r => l :: heap_append r x h'
  end.

(** [requests.append(x)] *)
Definition list_append (ref : nat) (x : string) : M unit :=
  fun w => (Ret tt,
            {| ext := ext w; heap := heap_append ref x (heap w); events := events w |}).

End Actions.

Declare Scope action_scope.
Delimit Scope action_scope with action.
Notation "x <- m ;; k" := (bind m (fun x => k))
  (at level 61, m at next level, right associativity) : action_scope.
Notation "m ;;; k" := (bind m (fun _ => k))
  (at level 61, right associativity) : action_scope.
Local Open Scope action_scope.

(* ================================================================== *)
(** ** Control structures *)

Section Control.

Context {X : External}.

(** [async with enter as r: body].  The exit runs once, on whichever way
    the body is left, and is told the exception, if any; the context
    managers used in this file never swallow it.  An exception of the
    exit itself goes on in place of the body's outcome. *)
Definition async_with {R A : Type} (enter : M R) (exit : R -> option Exn -> M unit)
    (body : R -> M A) : M A :=
  r <- enter ;;
  fun w =>
    match body r w with
    | (Ret a, w') => (exit r None ;;; ret a) w'
    | (Raise e, w') => (exit r (Some e) ;;; raise e) w'
    end.

(** [for i in items: body], where the body may [return] from the
    enclosing function ([Some]) or fall through to the next round
    ([None]); [after] is the code behind the loop. *)
Fixpoint for_each {I A : Type} (items : list I) (body : I -> M (option A))
    (after : M A) : M A :=
  match items with
  | [] => after
  | i :: rest =>
      o <- body i ;;
      match o with
      | Some a => ret a
      | None => for_each rest body after
      end
  end.

(** A loop whose body never returns from the function. *)
Fixpoint for_ {I : Type} (items : list I) (body : I -> M unit) : M unit :=
  match items with
  | [] => ret tt
  | i :: rest => body i ;;; for_ rest body
  end.

(** [range(n)] *)
Definition range (n : Z) : list Z := map Z.of_nat (seq 0 (Z.to_nat n)).

(** Truth value of an [Optional[str]]. *)
Definition truthy (o : option string) : bool :=
  match o with
  | Some s => negb (String.eqb s "")
  | None => false
  end.

(** [except Exception as e: return ActionResult(error=str(e))] *)
Definition on_error (e : Exn) : M ActionResult := ret (Failure (exn_str e)).

End Control.

(* ================================================================== *)
(** ** The handlers of [_register_custom_actions] *)

Section Handlers.

Context {X : External}.

Definition copy_to_clipboard (text : string) : M ActionResult :=
  call (pyperclip_copy text) ;;;
  ret (Success text).

Definition paste_from_clipboard : M ActionResult :=
  text <- call pyperclip_paste ;;
  page <- call get_current_page ;;
  call (keyboard_type page text) ;;;
  ret (Success text).

Definition UnicodeDecodeError : Exn :=
  mkExn "UnicodeDecodeError" "'utf-8' codec can't decode byte".

Definition bytes_decode (bs : list byte) : M string :=
  match decode_utf8 bs with
  | Some s => ret s
  | None => raise UnicodeDecodeError
  end.

Definition take_screenshot : M ActionResult :=
  page <- call get_current_page ;;
  shot <- call (screenshot page false) ;;
  screenshot_base64 <- bytes_decode (b64encode shot) ;;
  ret (Success (data_url_prefix ++ screenshot_base64)).

Definition extract_main_content : M ActionResult :=
  page <- call get_current_page ;;
  html <- call (content page) ;;
  main_content <- call (extractor_extract html) ;;
  ret (Success main_content).

Definition wait_for_element (selector : string) (timeout : Z) : M ActionResult :=
  page <- call get_current_page ;;
  try_except
    (call (wait_for_selector page selector timeout) ;;;
     ret (Success ("Element '" ++ selector ++ "' found")))
    on_error.

Definition execute_js (script : string) : M ActionResult :=
  page <- call get_current_page ;;
  result <- call (evaluate page script) ;;
  ret (Success (py_str result)).

Definition scroll_to_element (selector : string) : M ActionResult :=
  page <- call get_current_page ;;
  try_except
    (call (evaluate page ("document.querySelector(" ++ dquote ++ selector ++ dquote
                            ++ ").scrollIntoView()")) ;;;
     ret (Success ("Scrolled to element '" ++ selector ++ "'")))
    on_error.

Definition close_tab : M ActionResult :=
  page <- call get_current_page ;;
  call (close page) ;;;
  ret (Success "Tab closed").

Definition log_page_url : M ActionResult :=
  page <- call get_current_page ;;
  url <- call (page_url page) ;;
  logger_info ("Current page URL: " ++ url) ;;;
  ret (Success ("Logged URL: " ++ url)).

Definition open_new_tab (url : string) : M ActionResult :=
  new <- call new_page ;;
  call (goto new url) ;;;
  ret (Success ("Opened new tab with URL: " ++ url)).

Definition click_element (selector : string) : M ActionResult :=
  page <- call get_current_page ;;
  try_except
    (call (click page selector) ;;;
     ret (Success ("Clicked element with selector: " ++ selector)))
    on_error.

Definition input_text (selector text : string) : M ActionResult :=
  page <- call get_current_page ;;
  try_except
    (call (fill page selector (PStr text)) ;;;
     ret (Success ("Input text into element " ++ selector)))
    on_error.

Definition refresh_page : M ActionResult :=
  page <- call get_current_page ;;
  try_except
    (call (reload page) ;;;
     ret (Success "Page refreshed"))
    on_error.

Definition hover_over_element (selector : string) : M ActionResult :=
  page <- call get_current_page ;;
  try_except
    (call (hover page selector) ;;;
     ret (Success ("Hovered over element: " ++ selector)))
    on_error.

Definition get_cookies : M ActionResult :=
  page <- call get_current_page ;;
  try_except
    (cks <- call (cookies page) ;;
     ret (Success (py_str cks)))
    on_error.

Definition lift {A : Type} (o : Outcome A) : M A :=
  match o with
  | Ret a => ret a
  | Raise e => raise e
  end.

Definition set_cookies (cks : string) : M ActionResult :=
  page <- call get_current_page ;;
  try_except
    (cookies_list <- lift (json_loads cks) ;;
     call (add_cookies page cookies_list) ;;;
     ret (Success "Cookies set"))
    on_error.

Definition download_file (url : string) (download_path : option string) : M ActionResult :=
  page <- call get_current_page ;;
  try_except
    (download_info <-
       async_with (call (expect_download_enter page))
                  (fun info exc => call (expect_download_exit info exc))
                  (fun info => call (goto page url) ;;; ret info) ;;
     download <- call (download_value download_info) ;;
     if truthy download_path then
       let path := match download_path with Some p => p | None => "" end in
       call (save_as download path) ;;;
       ret (Success ("Downloaded file saved to " ++ path))
     else ret (Success "File downloaded"))
    on_error.

Definition wait_for_navigation (timeout : Z) : M ActionResult :=
  page <- call get_current_page ;;
  try_except
    (call (page_wait_for_navigation page timeout) ;;;
     ret (Success "Navigation completed"))
    on_error.

Definition scroll_to_bottom : M ActionResult :=
  page <- call get_current_page ;;
  try_except
    (call (evaluate page "window.scrollTo(0, document.body.scrollHeight)") ;;;
     ret (Success "Scrolled to the bottom of the page"))
    on_error.

Definition scroll_to_top : M ActionResult :=
  page <- call get_current_page ;;
  try_except
    (call (evaluate page "window.scrollTo(0, 0)") ;;;
     ret (Success "Scrolled to the top of the page"))
    on_error.

Definition simulate_mouse_movement (x y : Z) : M ActionResult :=
  page <- call get_current_page ;;
  try_except
    (call (mouse_move page x y) ;;;
     ret (Success ("Mouse moved to coordinates (" ++ str_int x ++ ", " ++ str_int y ++ ")")))
    on_error.

Definition nl : string := String "010"%char EmptyString.

Definition links_script : string :=
  "() => {" ++ nl ++
  "                        return Array.from(document.querySelectorAll('a')).map(a => a.href);"
  ++ nl ++
  "                    }".

Definition images_script : string :=
  "() => {" ++ nl ++
  "                        return Array.from(document.querySelectorAll('img')).map(img => img.src);"
  ++ nl ++
  "                    }".

Definition table_script (selector : string) : string :=
  "() => {" ++ nl ++
  "                        const rows = Array.from(document.querySelectorAll('"
  ++ selector ++ " tr'));" ++ nl ++
  "                        return rows.map(row => {" ++ nl ++
  "                            const cells = Array.from(row.querySelectorAll('th, td'));" ++ nl ++
  "                            return cells.map(cell => cell.innerText);" ++ nl ++
  "                        });" ++ nl ++
  "                    }".

Definition extract_all_links : M ActionResult :=
  page <- call get_current_page ;;
  try_except
    (links <- call (evaluate page links_script) ;;
     ret (Success (json_dumps links)))
    on_error.

Definition extract_all_images : M ActionResult :=
  page <- call get_current_page ;;
  try_except
    (images <- call (evaluate page images_script) ;;
     ret (Success (json_dumps images)))
    on_error.

Definition extract_table_data (selector : string) : M ActionResult :=
  page <- call get_current_page ;;
  try_except
    (table_data <- call (evaluate page (table_script selector)) ;;
     ret (Success (json_dumps table_data)))
    on_error.

Definition type_name (v : PyValue) : string :=
  match v with
  | PNone => "NoneType"
  | PBool _ => "bool"
  | PInt _ => "int"
  | PStr _ => "str"
  | PList _ => "list"
  | PDict _ => "dict"
  end.

(** [d.items()]: only a [dict] has the attribute. *)
Definition items (v : PyValue) : M (list (string * PyValue)) :=
  match v with
  | PDict pairs => ret pairs
  | _ => raise (mkExn "AttributeError"
                  ("'" ++ type_name v ++ "' object has no attribute 'items'"))
  end.

Definition fill_and_submit_form (form_selector data : string) : M ActionResult :=
  page <- call get_current_page ;;
  try_except
    (data_dict <- lift (json_loads data) ;;
     fields <- items data_dict ;;
     for_ fields (fun fv =>
       call (fill page (form_selector ++ " [name=" ++ dquote ++ fst fv ++ dquote ++ "]")
                  (snd fv))) ;;;
     call (click page (form_selector ++ " [type=" ++ dquote ++ "submit" ++ dquote ++ "]")) ;;;
     ret (Success "Form filled and submitted"))
    on_error.

Definition handle_popup (action : string) : M ActionResult :=
  page <- call get_current_page ;;
  try_except
    ((if String.eqb action "accept" then call (page_on page "dialog" OnDialogAccept)
      else if String.eqb action "dismiss" then call (page_on page "dialog" OnDialogDismiss)
      else ret tt) ;;;
     ret (Success ("Popup handled: " ++ action)))
    on_error.

Definition switch_to_iframe (iframe_selector : string) : M ActionResult :=
  page <- call get_current_page ;;
  try_except
    (iframe <- call (query_selector page iframe_selector) ;;
     match iframe with
     | Some el =>
         call (content_frame el) ;;;
         ret (Success ("Switched to iframe: " ++ iframe_selector))
     | None => ret (Failure "Iframe not found")
     end)
    on_error.

Definition log_console_output : M ActionResult :=
  page <- call get_current_page ;;
  try_except
    (call (page_on page "console" OnConsoleLog) ;;;
     ret (Success "Console logging enabled"))
    on_error.

Definition capture_network_requests : M ActionResult :=
  page <- call get_current_page ;;
  try_except
    (requests <- new_list ;;
     call (page_on page "request" (OnRequestAppend requests)) ;;;
     urls <- read_list requests ;;
     ret (Success (json_dumps (PList (map PStr urls)))))
    on_error.

(** What a listener does when the page reports a request to [req_url]. *)
Definition on_request (cb : Callback) (req_url : string) : M unit :=
  match cb with
  | OnRequestAppend requests => list_append requests req_url
  | _ => ret tt
  end.

Definition clear_browser_cache : M ActionResult :=
  page <- call get_current_page ;;
  try_except
    (call (clear_cache page) ;;;
     ret (Success "Browser cache cleared"))
    on_error.

Definition take_full_page_screenshot : M ActionResult :=
  page <- call get_current_page ;;
  try_except
    (shot <- call (screenshot page true) ;;
     screenshot_base64 <- bytes_decode (b64encode shot) ;;
     ret (Success (data_url_prefix ++ screenshot_base64)))
    on_error.

Definition UnboundLocalError_result : Exn :=
  mkExn "UnboundLocalError"
        "cannot access local variable 'result' where it is not associated with a value".

(** [json.loads(data)] for an [Optional[str]]. *)
Definition json_loads_opt (data : option string) : M PyValue :=
  match data with
  | Some s => lift (json_loads s)
  | None => raise (mkExn "TypeError"
                     "the JSON object must be str, bytes or bytearray, not NoneType")
  end.

(** The local [result] is bound on the two method branches only. *)
Definition call_external_api (url method : string) (data : option string) : M ActionResult :=
  try_except
    (call import_aiohttp ;;;
     async_with (call client_session_enter)
                (fun session exc => call (client_session_exit session exc))
                (fun session =>
         result <-
           (if String.eqb method "GET" then
              text <- async_with (emit (EvGet url) ;;; call (session_get session url))
                                 (fun response exc => call (response_exit response exc))
                                 (fun response => call (response_text response)) ;;
              ret (Some text)
            else if String.eqb method "POST" then
              body <- json_loads_opt data ;;
              text <- async_with (emit (EvPost url body) ;;; call (session_post session url body))
                                 (fun response exc => call (response_exit response exc))
                                 (fun response => call (response_text response)) ;;
              ret (Some text)
            else ret None) ;;
         match result with
         | Some text => ret (Success text)
         | None => raise UnboundLocalError_result
         end))
    on_error.

(** [self.registry.execute_action(action_name, browser)], recorded in the
    trace. *)
Definition registry_execute_action (action_name : string) : M ActionResult :=
  emit (EvExecute action_name) ;;; call (execute_action action_name).

Definition retry_failed_action (action_name : string) (max_retries : Z) : M ActionResult :=
  for_each (range max_retries)
    (fun i =>
       try_except
         (result <- registry_execute_action action_name ;;
          ret (Some result))
         (fun e =>
            logger_warning ("Retry " ++ str_int (i + 1) ++ " failed: " ++ exn_str e) ;;;
            ret None))
    (ret (Failure ("Action '" ++ action_name ++ "' failed after "
                     ++ str_int max_retries ++ " retries"))).

End Handlers.

(* ================================================================== *)
(** ** The registered actions, by name *)

(** One constructor per function registered by [@self.registry.action],
    with the arguments of an invocation. *)
Inductive Action : Type :=
| Copy_to_clipboard (text : string)
| Paste_from_clipboard
| Take_screenshot
| Extract_main_content
| Wait_for_element (selector : string) (timeout : Z)
| Execute_js (script : string)
| Scroll_to_element (selector : string)
| Close_tab
| Log_page_url
| Open_new_tab (url : string)
| Click_element (selector : string)
| Input_text (selector text : string)
| Refresh_page
| Hover_over_element (selector : string)
| Get_cookies
| Set_cookies (cookies : string)
| Download_file (url : string) (download_path : option string)
| Wait_for_navigation (timeout : Z)
| Scroll_to_bottom
| Scroll_to_top
| Simulate_mouse_movement (x y : Z)
| Extract_all_links
| Extract_all_images
| Extract_table_data (selector : string)
| Fill_and_submit_form (form_selector data : string)
| Handle_popup (action : string)
| Switch_to_iframe (iframe_selector : string)
| Log_console_output
| Capture_network_requests
| Clear_browser_cache
| Take_full_page_screenshot
| Call_external_api (url method : string) (data : option string)
| Retry_failed_action (action_name : string) (max_retries : Z).

Definition invoke {X : External} (a : Action) : M ActionResult :=
  match a with
  | Copy_to_clipboard text => copy_to_clipboard text
  | Paste_from_clipboard => paste_from_clipboard
  | Take_screenshot => take_screenshot
  | Extract_main_content => extract_main_content
  | Wait_for_element selector timeout => wait_for_element selector timeout
  | Execute_js script => execute_js script
  | Scroll_to_element selector => scroll_to_element selector
  | Close_tab => close_tab
  | Log_page_url => log_page_url
  | Open_new_tab url => open_new_tab url
  | Click_element selector => click_element selector
  | Input_text selector text => input_text selector text
  | Refresh_page => refresh_page
  | Hover_over_element selector => hover_over_element selector
  | Get_cookies => get_cookies
  | Set_cookies cks => set_cookies cks
  | Download_file url path => download_file url path
  | Wait_for_navigation timeout => wait_for_navigation timeout
  | Scroll_to_bottom => scroll_to_bottom
  | Scroll_to_top => scroll_to_top
  | Simulate_mouse_movement x y => simulate_mouse_movement x y
  | Extract_all_links => extract_all_links
  | Extract_all_images => extract_all_images
  | Extract_table_data selector => extract_table_data selector
  | Fill_and_submit_form form_selector data => fill_and_submit_form form_selector data
  | Handle_popup action => handle_popup action
  | Switch_to_iframe iframe_selector => switch_to_iframe iframe_selector
  | Log_console_output => log_console_output
  | Capture_network_requests => capture_network_requests
  | Clear_browser_cache => clear_browser_cache
  | Take_full_page_screenshot => take_full_page_screenshot
  | Call_external_api url method data => call_external_api url method data
  | Retry_failed_action action_name max_retries => retry_failed_action action_name max_retries
  end.

(* ================================================================== *)
(** ** A scripted collaborator

    A small stand-in for the collaborators, used to run the handlers on
    concrete sessions: one page, a cookie jar, a clipboard, and scripted
    answers for the screenshot, the script evaluation and the registry. *)

(** An answer of the scripted registry to one call. *)
Inductive Answer : Type :=
| Answer_success (content : string)
| Answer_failure (message : string)
| Answer_raise (e : Exn)
| Answer_result (r : ActionResult).

Definition outcome_of_answer (a : Answer) : Outcome ActionResult :=
  match a with
  | Answer_success c => Ret (Success c)
  | Answer_failure m => Ret (Failure m)
  | Answer_raise e => Raise e
  | Answer_result r => Ret r
  end.

Record SimState : Type := mkSim {
  sim_clipboard : string;
  sim_jar : list PyValue;
  sim_image : Outcome (list byte);
  sim_eval : Outcome PyValue;
  sim_listeners : list (string * Callback);
  sim_registry : list Answer
}.

Definition sim_ok {A : Type} (a : A) : Op SimState A := fun s => (Ret a, s).

Definition sim_add_cookies (v : PyValue) : Op SimState unit :=
  fun s =>
    match v with
    | PList l =>
        (Ret tt, mkSim (sim_clipboard s) (sim_jar s ++ l)%list (sim_image s) (sim_eval s)
                       (sim_listeners s) (sim_registry s))
    | _ => (Raise (mkExn "Error" "cookies: expected array"), s)
    end.

Definition sim_page_on (event : string) (cb : Callback) : Op SimState unit :=
  fun s =>
    (Ret tt, mkSim (sim_clipboard s) (sim_jar s) (sim_image s) (sim_eval s)
                   (sim_listeners s ++ [(event, cb)])%list (sim_registry s)).

(** The registry answers the successive calls from its script and raises
    once the script is used up. *)
Definition sim_execute_action (name : string) : Op SimState ActionResult :=
  fun s =>
    match sim_registry s with
    | a :: rest =>
        (outcome_of_answer a,
         mkSim (sim_clipboard s) (sim_jar s) (sim_image s) (sim_eval s)
               (sim_listeners s) rest)
    | [] => (Raise (mkExn "ValueError" ("Action " ++ name ++ " not found")), s)
    end.

#[local] Instance Sim : External := {|
  St := SimState;
  Page := unit;
  Element := unit;
  DownloadInfo := unit;
  Download := unit;
  ClientSession := unit;
  Response := unit;
  pyperclip_copy := fun text s =>
    (Ret tt, mkSim text (sim_jar s) (sim_image s) (sim_eval s) (sim_listeners s)
                   (sim_registry s));
  pyperclip_paste := fun s => (Ret (sim_clipboard s), s);
  extractor_extract := fun html => sim_ok html;
  get_current_page := sim_ok tt;
  new_page := sim_ok tt;
  keyboard_type := fun _ _ => sim_ok tt;
  screenshot := fun _ _ s => (sim_image s, s);
  content := fun _ => sim_ok "<html></html>";
  wait_for_selector := fun _ _ _ => sim_ok tt;
  evaluate := fun _ _ s => (sim_eval s, s);
  close := fun _ => sim_ok tt;
  page_url := fun _ => sim_ok "about:blank";
  goto := fun _ _ => sim_ok tt;
  click := fun _ _ => sim_ok tt;
  fill := fun _ _ _ => sim_ok tt;
  reload := fun _ => sim_ok tt;
  hover := fun _ _ => sim_ok tt;
  cookies := fun _ s => (Ret (PList (sim_jar s)), s);
  add_cookies := fun _ v => sim_add_cookies v;
  clear_cache := fun _ => sim_ok tt;
  expect_download_enter := fun _ => sim_ok tt;
  expect_download_exit := fun _ _ => sim_ok tt;
  download_value := fun _ => sim_ok tt;
  save_as := fun _ _ => sim_ok tt;
  page_wait_for_navigation := fun _ _ => sim_ok tt;
  mouse_move := fun _ _ _ => sim_ok tt;
  page_on := fun _ event cb => sim_page_on event cb;
  query_selector := fun _ _ => sim_ok (Some tt);
  content_frame := fun _ => sim_ok tt;
  import_aiohttp := sim_ok tt;
  client_session_enter := sim_ok tt;
  client_session_exit := fun _ _ => sim_ok tt;
  session_get := fun _ _ => sim_ok tt;
  session_post := fun _ _ _ => sim_ok tt;
  response_text := fun _ => sim_ok "ok";
  response_exit := fun _ _ => sim_ok tt;
  execute_action := sim_execute_action
|}.

Definition sim_state : SimState :=
  mkSim "" [] (Ret []) (Ret PNone) [] [].

Definition sim_world (s : SimState) : @World Sim :=
  {| ext := s; heap := []; events := [] |}.

(* ================================================================== *)
(** ** Vocabulary of the statements *)

Section Vocabulary.

Context {X : External}.

(** Consecutive calls of the registry for [name], started in state [s],
    raise the exceptions [es] one after the other and leave the
    collaborators in state [s']. *)
Inductive raises_in_a_row (name : string) : St -> list Exn -> St -> Prop :=
| raises_none : forall s, raises_in_a_row name s [] s
| raises_next : forall s e s1 es s',
    execute_action name s = (Raise e, s1) ->
    raises_in_a_row name s1 es s' ->
    raises_in_a_row name s (e :: es) s'.

(** The trace of failed attempts numbered from [i]: each is one call of
    the registry followed by one warning. *)
Fixpoint failed_attempts (name : string) (i : Z) (es : list Exn) : list Event :=
  match es with
  | [] => []
  | e :: es' =>
      EvExecute name
        :: EvLog WARNING ("Retry " ++ str_int i ++ " failed: " ++ exn_str e)
        :: failed_attempts name (i + 1) es'
  end.

Definition is_execute (ev : Event) : bool :=
  match ev with EvExecute _ => true | _ => false end.

(** How many times the registry was called. *)
Definition executions (tr : list Event) : nat := List.length (filter is_execute tr).

(** The world after the collaborators moved to state [s]. *)
Definition with_ext (w : World) (s : St) : World :=
  {| ext := s; heap := heap w; events := events w |}.

(** Every result that [m] returns satisfies [P]. *)
Definition Returns {A : Type} (m : M A) (P : A -> Prop) : Prop :=
  forall w a w', m w = (Ret a, w') -> P a.

End Vocabulary.

(** The body of the loop in [retry_failed_action]. *)
Definition retry_body {X : External} (action_name : string) (i : Z) : M (option ActionResult) :=
  try_except
    (result <- registry_execute_action action_name ;;
     ret (Some result))
    (fun e =>
       logger_warning ("Retry " ++ str_int (i + 1) ++ " failed: " ++ exn_str e) ;;;
       ret None).

(** Sessions of the scripted collaborator that differ from [sim_state] in
    one component. *)
Definition sim_with_registry (script : list Answer) : SimState :=
  mkSim "" [] (Ret []) (Ret PNone) [] script.

Definition sim_with_image (image : Outcome (list byte)) : SimState :=
  mkSim "" [] image (Ret PNone) [] [].

Definition sim_with_eval (result : Outcome PyValue) : SimState :=
  mkSim "" [] (Ret []) result [] [].

Definition boom (n : string) : Exn := mkExn "RuntimeError" ("boom " ++ n).

(** A cookie collection and the JSON text that carries it to
    [set_cookies]. *)
Definition sample_cookies : PyValue :=
  PList [PDict [("name", PStr "sid"); ("value", PStr "abc");
                ("url", PStr "https://example.com")]].

Definition sample_cookies_json : string := json_dumps sample_cookies.

Definition sim_with_jar (jar : list PyValue) : SimState :=
  mkSim "" jar (Ret []) (Ret PNone) [] [].


(* ================================================================== *)
(** ** Kinds of handlers *)

(** The handlers that look up the page and then run their driver
    operation inside [try ... except Exception]. *)
Definition guards_driver_call (a : Action) : bool :=
  match a with
  | Wait_for_element _ _ | Scroll_to_element _ | Click_element _ | Input_text _ _
  | Refresh_page | Hover_over_element _ | Get_cookies | Set_cookies _
  | Download_file _ _ | Wait_for_navigation _ | Scroll_to_bottom | Scroll_to_top
  | Simulate_mouse_movement _ _ | Extract_all_links | Extract_all_images
  | Extract_table_data _ | Fill_and_submit_form _ _ | Handle_popup _
  | Switch_to_iframe _ | Log_console_output | Capture_network_requests
  | Clear_browser_cache | Take_full_page_screenshot => true
  | _ => false
  end.

(** The handlers with no [except] branch at all. *)
Definition has_no_except (a : Action) : bool :=
  match a with
  | Copy_to_clipboard _ | Paste_from_clipboard | Take_screenshot
  | Extract_main_content | Execute_js _ | Close_tab | Log_page_url
  | Open_new_tab _ => true
  | _ => false
  end.

(** The handlers whose first statement is
    [page = await browser.get_current_page()]. *)
Definition looks_up_page_first (a : Action) : bool :=
  match a with
  | Take_screenshot | Extract_main_content | Execute_js _ | Close_tab
  | Log_page_url => true
  | _ => guards_driver_call a
  end.

Section FormVocabulary.

Context {X : External}.

(** [f'{form_selector} [name="{field}"]'] *)
Definition field_selector (form_selector field : string) : string :=
  form_selector ++ " [name=" ++ dquote ++ field ++ dquote ++ "]".

(** [f'{form_selector} [type="submit"]'] *)
Definition submit_selector (form_selector : string) : string :=
  form_selector ++ " [type=" ++ dquote ++ "submit" ++ dquote ++ "]".

(** The fields are filled one after the other, in the order given, and
    every [page.fill] returns; the driver goes from [s] to [s']. *)
Inductive fills_in_order (p : Page) (form_selector : string)
  : list (string * PyValue) -> St -> St -> Prop :=
| fills_none : forall s, fills_in_order p form_selector [] s s
| fills_next : forall field value rest s s1 s',
    fill p (field_selector form_selector field) value s = (Ret tt, s1) ->
    fills_in_order p form_selector rest s1 s' ->
    fills_in_order p form_selector ((field, value) :: rest) s s'.

End FormVocabulary.

(* ================================================================== *)
(** ** A journalling collaborator

    A second stand-in: its state is the journal of the driver calls that
    change the page, in order, and a table of faults says which calls
    raise. *)

Record Faults : Type := mkFaults {
  fault_page : option Exn;             (* get_current_page *)
  fault_fill : string -> option Exn;   (* page.fill, by selector *)
  iframe_found : bool                  (* page.query_selector *)
}.

Definition no_faults : Faults := mkFaults None (fun _ => None) true.

Definition journal_add (s : list string) (entry : string) : list string :=
  (s ++ [entry])%list.

Definition journal_ok {A : Type} (a : A) : Op (list string) A := fun s => (Ret a, s).

Definition journal_entry {A : Type} (entry : string) (a : A) : Op (list string) A :=
  fun s => (Ret a, journal_add s entry).

Definition journal_fill (F : Faults) (selector : string) : Op (list string) unit :=
  fun s =>
    match fault_fill F selector with
    | Some e => (Raise e, journal_add s ("fill " ++ selector))
    | None => (Ret tt, journal_add s ("fill " ++ selector))
    end.

Definition Journal (F : Faults) : External := {|
  St := list string;
  Page := unit;
  Element := unit;
  DownloadInfo := unit;
  Download := unit;
  ClientSession := unit;
  Response := unit;
  pyperclip_copy := fun text => journal_entry ("copy " ++ text) tt;
  pyperclip_paste := journal_ok "";
  extractor_extract := fun html => journal_ok html;
  get_current_page := fun s =>
    match fault_page F with
    | Some e => (Raise e, s)
    | None => (Ret tt, s)
    end;
  new_page := journal_entry "new_page" tt;
  keyboard_type := fun _ text => journal_entry ("type " ++ text) tt;
  screenshot := fun _ _ => journal_ok [];
  content := fun _ => journal_ok "<html></html>";
  wait_for_selector := fun _ _ _ => journal_ok tt;
  evaluate := fun _ script => journal_entry ("evaluate " ++ script) PNone;
  close := fun _ => journal_entry "close" tt;
  page_url := fun _ => journal_ok "about:blank";
  goto := fun _ url => journal_entry ("goto " ++ url) tt;
  click := fun _ selector => journal_entry ("click " ++ selector) tt;
  fill := fun _ selector _ => journal_fill F selector;
  reload := fun _ => journal_entry "reload" tt;
  hover := fun _ selector => journal_entry ("hover " ++ selector) tt;
  cookies := fun _ => journal_ok (PList []);
  add_cookies := fun _ _ => journal_entry "add_cookies" tt;
  clear_cache := fun _ => journal_entry "clear_cache" tt;
  expect_download_enter := fun _ => journal_ok tt;
  expect_download_exit := fun _ _ => journal_ok tt;
  download_value := fun _ => journal_ok tt;
  save_as := fun _ path => journal_entry ("save_as " ++ path) tt;
  page_wait_for_navigation := fun _ _ => journal_ok tt;
  mouse_move := fun _ _ _ => journal_entry "mouse_move" tt;
  page_on := fun _ event _ => journal_entry ("on " ++ event) tt;
  query_selector := fun _ _ => journal_ok (if iframe_found F then Some tt else None);
  content_frame := fun _ => journal_entry "content_frame" tt;
  import_aiohttp := journal_ok tt;
  client_session_enter := journal_ok tt;
  client_session_exit := fun _ _ => journal_ok tt;
  session_get := fun _ url => journal_entry ("GET " ++ url) tt;
  session_post := fun _ url _ => journal_entry ("POST " ++ url) tt;
  response_text := fun _ => journal_ok "body";
  response_exit := fun _ _ => journal_ok tt;
  execute_action := fun name s =>
    (Raise (mkExn "ValueError" ("Action " ++ name ++ " not found")),
     journal_add s ("execute " ++ name))
|}.

Definition journal_world (F : Faults) : @World (Journal F) :=
  @mkWorld (Journal F) [] [] [].

(* ================================================================== *)
(** ** Vocabulary for JSON round trips *)

Fixpoint distinct (keys : list string) : bool :=
  match keys with
  | [] => true
  | k :: rest => andb (negb (existsb (String.eqb k) rest)) (distinct rest)
  end.

(** No dictionary inside the value has a repeated key (as for every
    value that [json.loads] builds). *)
Fixpoint unique_keys (v : PyValue) : bool :=
  match v with
  | PList items => forallb unique_keys items
  | PDict pairs =>
      andb (distinct (map fst pairs)) (forallb (fun kv => unique_keys (snd kv)) pairs)
  | _ => true
  end.

(** What may follow a value inside a JSON text written by [json.dumps]:
    nothing, a comma or a closing bracket. *)
Definition delimited (rest : string) : bool :=
  match rest with
  | EmptyString => true
  | String c _ =>
      orb (Ascii.eqb c ","%char) (orb (Ascii.eqb c "]"%char) (Ascii.eqb c "}"%char))
  end.

(** The value of a table: a list of rows, each a list of cell texts. *)
Definition table_value (rows : list (list string)) : PyValue :=
  PList (map (fun row => PList (map PStr row)) rows).

(** A list of cookies as [set_cookies] receives it: each cookie is a
    dictionary with distinct keys whose fields are strings ([name],
    [value], [url], [domain], [path], [sameSite]) or booleans
    ([httpOnly], [secure]). *)
Definition cookie_field (v : PyValue) : bool :=
  match v with
  | PStr _ | PBool _ => true
  | _ => false
  end.

Definition cookie (v : PyValue) : bool :=
  match v with
  | PDict pairs =>
      andb (distinct (map fst pairs)) (forallb (fun kv => cookie_field (snd kv)) pairs)
  | _ => false
  end.

Definition cookie_list (v : PyValue) : bool :=
  match v with
  | PList cks => forallb cookie cks
  | _ => false
  end.

(** With enough fuel the scanner reads the text of [v] back as [v] and
    leaves what follows it. *)
Definition reads_back (v : PyValue) : Prop :=
  exists f0 : nat,
    forall (f : nat) (rest : string),
      (f0 <= f)%nat ->
      delimited rest = true ->
      scan_once f (json_dumps v ++ rest) = Scanned v rest.

(** The text of one [key: value] member, as [json.dumps] writes it. *)
Definition member_text (kv : string * PyValue) : string :=
  json_quote (fst kv) ++ ": " ++ json_dumps (snd kv).

(** A text without its first character. *)
Definition string_tail (s : string) : string :=
  match s with
  | EmptyString => ""
  | String _ t => t
  end.

(* ================================================================== *)
(** ** Sample sessions *)

Definition faulty_page : Faults :=
  mkFaults (Some (boom "page")) (fun _ => None) true.

Definition faulty_field (selector : string) : Faults :=
  mkFaults None
           (fun s => if String.eqb s selector then Some (boom "fill") else None)
           true.

Definition no_iframe : Faults := mkFaults None (fun _ => None) false.

Definition login_fields : list (string * PyValue) :=
  [("user", PStr "ann"); ("pw", PStr "s3cret"); ("note", PStr "hi")].

Definition sample_table : list (list string) :=
  [["name"; "qty"]; ["tea"; "2"]; ["milk"; "1"]].

(* ================================================================== *)
(** ** Vocabulary for the extraction handlers *)

(** The script that an extraction handler hands to [page.evaluate]. *)
Definition extraction_script (a : Action) : option string :=
  match a with
  | Extract_all_links => Some links_script
  | Extract_all_images => Some images_script
  | Extract_table_data selector => Some (table_script selector)
  | _ => None
  end.

(** The characters [' '..'~']. *)
Definition printable_ascii (c : ascii) : bool :=
  andb (32 <=? code c)%N (code c <=? 126)%N.

Fixpoint ascii_only (s : string) : bool :=
  match s with
  | EmptyString => true
  | String c r => andb (printable_ascii c) (ascii_only r)
  end.

(* ================================================================== *)
(** * Properties *)

(** ** Strings *)

Lemma append_assoc (a b c : string) : (a ++ b) ++ c = a ++ b ++ c.
Proof. induction a as [|x a IH]; simpl; [reflexivity|]. rewrite IH. reflexivity. Qed.

Lemma contains_intro (pre sub post : string) : contains (pre ++ sub ++ post) sub.
Proof. exists pre, post. reflexivity. Qed.

(** ** The retry wrapper *)

Section RetryProperties.

Context {X : External}.

Lemma retry_failed_action_unfold (name : string) (max_retries : Z) :
  retry_failed_action name max_retries =
  for_each (range max_retries) (retry_body name)
    (ret (Failure ("Action '" ++ name ++ "' failed after "
                     ++ str_int max_retries ++ " retries"))).
Proof. reflexivity. Qed.

Lemma retry_body_returns (name : string) (i : Z) (w : World) (r : ActionResult) (s : St) :
  execute_action name (ext w) = (Ret r, s) ->
  retry_body name i w =
  (Ret (Some r),
   {| ext := s; heap := heap w; events := (events w ++ [EvExecute name])%list |}).
Proof.
  intros H.
  unfold retry_body, try_except, bind, registry_execute_action, bind, emit, call, ret.
  simpl. rewrite H. reflexivity.
Qed.

Lemma retry_body_raises (name : string) (i : Z) (w : World) (e : Exn) (s : St) :
  execute_action name (ext w) = (Raise e, s) ->
  retry_body name i w =
  (Ret None,
   {| ext := s; heap := heap w;
      events := (events w ++ failed_attempts name (i + 1) [e])%list |}).
Proof.
  intros H.
  unfold retry_body, try_except, bind, registry_execute_action, bind, emit, call, ret,
    logger_warning, emit.
  simpl. rewrite H. simpl. rewrite <- app_assoc. reflexivity.
Qed.

(** The loop runs through a row of raising attempts and goes on with the
    rounds that are left. *)
Lemma retry_loop_raises (name : string) (after : M ActionResult) :
  forall (es : list Exn) (a n : nat) (w : World) (s' : St),
    raises_in_a_row name (ext w) es s' ->
    (List.length es <= n)%nat ->
    for_each (map Z.of_nat (seq a n)) (retry_body name) after w =
    for_each (map Z.of_nat (seq (a + List.length es) (n - List.length es)))
             (retry_body name) after
             {| ext := s'; heap := heap w;
                events := (events w ++ failed_attempts name (Z.of_nat a + 1) es)%list |}.
Proof.
  induction es as [|e es IH]; intros a n w s' Hrow Hlen.
  - inversion Hrow; subst. simpl. rewrite Nat.add_0_r, Nat.sub_0_r, app_nil_r.
    destruct w; reflexivity.
  - inversion Hrow as [|s0 e0 s1 es0 s2 Hexec Hrest]; subst.
    simpl in Hlen. destruct n as [|n]; [lia|].
    cbn [seq map for_each]. unfold bind at 1.
    rewrite retry_body_raises with (e := e) (s := s1) by assumption.
    rewrite IH with (s' := s') by (assumption || lia).
    cbn [ext heap events List.length failed_attempts].
    rewrite <- app_assoc. cbn [app].
    replace (Z.of_nat (S a) + 1)%Z with (Z.of_nat a + 1 + 1)%Z by lia.
    replace (S a + List.length es)%nat with (a + S (List.length es))%nat by lia.
    reflexivity.
Qed.

Lemma executions_app (t1 t2 : list Event) :
  executions (t1 ++ t2) = (executions t1 + executions t2)%nat.
Proof. unfold executions. rewrite filter_app, length_app. reflexivity. Qed.

Lemma executions_failed_attempts (name : string) (es : list Exn) :
  forall i, executions (failed_attempts name i es) = List.length es.
Proof.
  induction es as [|e es IH]; intros i; [reflexivity|].
  simpl. unfold executions in *. simpl. rewrite IH. reflexivity.
Qed.

(** C2.  If some attempt of the named action returns normally, after any
    number of raising attempts that leaves a round over, the wrapper
    returns exactly that result, whatever it is (a [Failure] included),
    and calls the registry no more: the trace shows one call per raising
    attempt and one for the attempt that returned.  With no raising
    attempt before it, the action is invoked exactly once. *)
Theorem retry_returns_first_normal_result
    (name : string) (max_retries : Z) (w : World)
    (es : list Exn) (s1 : St) (r : ActionResult) (s' : St) :
  (1 <= max_retries)%Z ->
  raises_in_a_row name (ext w) es s1 ->
  (Z.of_nat (List.length es) < max_retries)%Z ->
  execute_action name s1 = (Ret r, s') ->
  retry_failed_action name max_retries w =
    (Ret r,
     {| ext := s'; heap := heap w;
        events := (events w ++ failed_attempts name 1 es ++ [EvExecute name])%list |})
  /\ executions (failed_attempts name 1 es ++ [EvExecute name]) = S (List.length es).
Proof.
  intros _ Hrow Hlt Hret. split.
  - rewrite retry_failed_action_unfold. unfold range.
    rewrite retry_loop_raises with (es := es) (s' := s1) by (assumption || lia).
    destruct (Z.to_nat max_retries - List.length es)%nat as [|k] eqn:Hk; [lia|].
    cbn [seq map for_each]. unfold bind at 1.
    erewrite retry_body_returns by (cbn [ext]; exact Hret).
    cbn [ext heap events]. unfold ret. rewrite <- app_assoc. reflexivity.
  - rewrite executions_app, executions_failed_attempts. cbn. lia.
Qed.

(** C3.  If each of the [max_retries] attempts raises, the wrapper calls
    the registry exactly [max_retries] times, logs after each attempt a
    warning with the number of the attempt and the text of the error,
    and returns a [Failure] whose message holds the name of the action
    and the value of [max_retries]. *)
Theorem retry_exhausted_returns_failure
    (name : string) (max_retries : Z) (w : World) (es : list Exn) (s' : St) :
  (1 <= max_retries)%Z ->
  raises_in_a_row name (ext w) es s' ->
  Z.of_nat (List.length es) = max_retries ->
  retry_failed_action name max_retries w =
    (Ret (Failure ("Action '" ++ name ++ "' failed after "
                     ++ str_int max_retries ++ " retries")),
     {| ext := s'; heap := heap w;
        events := (events w ++ failed_attempts name 1 es)%list |})
  /\ executions (failed_attempts name 1 es) = Z.to_nat max_retries
  /\ contains ("Action '" ++ name ++ "' failed after "
                 ++ str_int max_retries ++ " retries") name
  /\ contains ("Action '" ++ name ++ "' failed after "
                 ++ str_int max_retries ++ " retries") (str_int max_retries).
Proof.
  intros _ Hrow Hlen. repeat split.
  - rewrite retry_failed_action_unfold. unfold range.
    rewrite retry_loop_raises with (es := es) (s' := s') by (assumption || lia).
    replace (Z.to_nat max_retries - List.length es)%nat with 0%nat by lia.
    reflexivity.
  - rewrite executions_failed_attempts. lia.
  - apply (contains_intro "Action '" name
             ("' failed after " ++ str_int max_retries ++ " retries")).
  - exists ("Action '" ++ name ++ "' failed after "), " retries".
    rewrite !append_assoc. reflexivity.
Qed.

(** C9.  With [max_retries = 0] the loop has no round: the world comes
    back as it was (no call of the registry, no record) and the result is
    the [Failure] that reports 0 retries. *)
Theorem retry_zero_never_invokes (name : string) (w : World) :
  retry_failed_action name 0 w =
    (Ret (Failure ("Action '" ++ name ++ "' failed after 0 retries")), w).
Proof. reflexivity. Qed.

End RetryProperties.

(** A run of C2 on the scripted registry: the action returns a [Failure]
    at once and is called a single time. *)
Lemma retry_returns_first_normal_result_witness :
  retry_failed_action "click_element" 3
    (sim_world (sim_with_registry [Answer_failure "boom"])) =
    (Ret (Failure "boom"),
     {| ext := sim_with_registry []; heap := [];
        events := [EvExecute "click_element"] |})
  /\ executions [EvExecute "click_element"] = 1%nat.
Proof.
  apply (@retry_returns_first_normal_result Sim "click_element" 3
           (sim_world (sim_with_registry [Answer_failure "boom"]))
           [] (sim_with_registry [Answer_failure "boom"])
           (Failure "boom") (sim_with_registry [])).
  - lia.
  - apply raises_none.
  - simpl. lia.
  - reflexivity.
Defined.

(** A run of C3 on the scripted registry: three raising attempts. *)
Lemma retry_exhausted_returns_failure_witness :
  retry_failed_action "click_element" 3
    (sim_world (sim_with_registry
                  [Answer_raise (boom "a"); Answer_raise (boom "b"); Answer_raise (boom "c")])) =
    (Ret (Failure "Action 'click_element' failed after 3 retries"),
     {| ext := sim_with_registry []; heap := [];
        events := [EvExecute "click_element"; EvLog WARNING "Retry 1 failed: boom a";
                   EvExecute "click_element"; EvLog WARNING "Retry 2 failed: boom b";
                   EvExecute "click_element"; EvLog WARNING "Retry 3 failed: boom c"] |})
  /\ executions (failed_attempts "click_element" 1 [boom "a"; boom "b"; boom "c"]) = 3%nat
  /\ contains "Action 'click_element' failed after 3 retries" "click_element"
  /\ contains "Action 'click_element' failed after 3 retries" "3".
Proof.
  apply (@retry_exhausted_returns_failure Sim "click_element" 3
           (sim_world (sim_with_registry
                         [Answer_raise (boom "a"); Answer_raise (boom "b"); Answer_raise (boom "c")]))
           [boom "a"; boom "b"; boom "c"] (sim_with_registry [])).
  - lia.
  - repeat (eapply raises_next; [reflexivity|]). apply raises_none.
  - reflexivity.
Defined.

(** ** Base64 and the text codecs *)

Section Base64.

Local Open Scope N_scope.

Ltac cases_N :=
  repeat match goal with
  | |- context [(?a <? ?b)%N] => destruct (N.ltb_spec a b)
  | |- context [(?a <=? ?b)%N] => destruct (N.leb_spec a b)
  | |- context [(?a =? ?b)%N] => destruct (N.eqb_spec a b)
  end; cbn [andb orb negb]; try lia.

Lemma byte_of_N_to_N (b : byte) : byte_of_N (Byte.to_N b) = b.
Proof. unfold byte_of_N. rewrite Byte.of_to_N. reflexivity. Qed.

Lemma to_N_byte_of_N (n : N) : n < 256 -> Byte.to_N (byte_of_N n) = n.
Proof.
  intros Hn. unfold byte_of_N.
  destruct (Byte.of_N n) as [b|] eqn:E.
  - apply Byte.to_of_N. exact E.
  - apply Byte.of_N_None_iff in E. lia.
Qed.

Lemma to_N_lt (b : byte) : Byte.to_N b < 256.
Proof. pose proof (Byte.to_N_bounded b). lia. Qed.

Lemma to_N_b64_char (n : N) :
  n < 64 ->
  Byte.to_N (b64_char n) =
    if n <? 26 then 65 + n
    else if n <? 52 then 71 + n
    else if n <? 62 then n - 4
    else if n =? 62 then 43 else 47.
Proof.
  intros Hn. unfold b64_char. cases_N; apply to_N_byte_of_N; lia.
Qed.

Lemma b64_value_char (n : N) : n < 64 -> b64_value (b64_char n) = Some n.
Proof.
  intros Hn. unfold b64_value. rewrite (to_N_b64_char Hn).
  destruct (N.ltb_spec n 26); [cases_N; f_equal; lia|].
  destruct (N.ltb_spec n 52); [cases_N; f_equal; lia|].
  destruct (N.ltb_spec n 62); [cases_N; f_equal; lia|].
  destruct (N.eqb_spec n 62); cbn; f_equal; lia.
Qed.

Lemma is_pad_char (n : N) : n < 64 -> is_pad (b64_char n) = false.
Proof.
  intros Hn. unfold is_pad. rewrite (to_N_b64_char Hn).
  destruct (N.ltb_spec n 26); [cases_N; reflexivity|].
  destruct (N.ltb_spec n 52); [cases_N; reflexivity|].
  destruct (N.ltb_spec n 62); [cases_N; reflexivity|].
  destruct (N.eqb_spec n 62); reflexivity.
Qed.

Lemma b64_char_ascii (n : N) : n < 64 -> Byte.to_N (b64_char n) < 128.
Proof.
  intros Hn. rewrite (to_N_b64_char Hn).
  destruct (N.ltb_spec n 26); [lia|].
  destruct (N.ltb_spec n 52); [lia|].
  destruct (N.ltb_spec n 62); [lia|].
  destruct (N.eqb_spec n 62); lia.
Qed.

Lemma div_mod_pack (q r d : N) :
  d <> 0 -> r < d -> (q * d + r) / d = q /\ (q * d + r) mod d = r.
Proof.
  intros Hd Hr. split.
  - rewrite N.add_comm, N.div_add by assumption.
    rewrite N.div_small by assumption. reflexivity.
  - rewrite N.add_comm, N.Div0.mod_add. apply N.mod_small. assumption.
Qed.

(** The four sextets of three bytes put the bytes back together. *)
Lemma sextets_of_bytes (a b c : N) :
  a < 256 -> b < 256 -> c < 256 ->
  (a / 4 < 64 /\ a mod 4 * 16 + b / 16 < 64 /\ b mod 16 * 4 + c / 64 < 64 /\ c mod 64 < 64)
  /\ a / 4 * 4 + (a mod 4 * 16 + b / 16) / 16 = a
  /\ (a mod 4 * 16 + b / 16) mod 16 * 16 + (b mod 16 * 4 + c / 64) / 4 = b
  /\ (b mod 16 * 4 + c / 64) mod 4 * 64 + c mod 64 = c.
Proof.
  intros Ha Hb Hc.
  assert (Ha4 : a / 4 < 64) by (apply N.Div0.div_lt_upper_bound; lia).
  assert (Hb16 : b / 16 < 16) by (apply N.Div0.div_lt_upper_bound; lia).
  assert (Hc64 : c / 64 < 4) by (apply N.Div0.div_lt_upper_bound; lia).
  assert (Hma : a mod 4 < 4) by (apply N.mod_upper_bound; lia).
  assert (Hmb : b mod 16 < 16) by (apply N.mod_upper_bound; lia).
  assert (Hmc : c mod 64 < 64) by (apply N.mod_upper_bound; lia).
  destruct (@div_mod_pack (a mod 4) (b / 16) 16 ltac:(lia) Hb16) as [E1 E2].
  destruct (@div_mod_pack (b mod 16) (c / 64) 4 ltac:(lia) Hc64) as [E3 E4].
  rewrite E1, E2, E3, E4.
  pose proof (N.div_mod a 4 ltac:(lia)).
  pose proof (N.div_mod b 16 ltac:(lia)).
  pose proof (N.div_mod c 64 ltac:(lia)).
  repeat split; lia.
Qed.

Lemma list_ind3 (A : Type) (P : list A -> Prop) :
  P [] ->
  (forall x, P [x]) ->
  (forall x y, P [x; y]) ->
  (forall x y z l, P l -> P (x :: y :: z :: l)) ->
  forall l, P l.
Proof.
  intros H0 H1 H2 H3.
  assert (H : forall l, P l /\ (forall x, P (x :: l)) /\ (forall x y, P (x :: y :: l))).
  { induction l as [|z l [IH0 [IH1 IH2]]].
    - repeat split; auto.
    - repeat split; auto. }
  intros l. apply H.
Qed.

Lemma is_pad_b64_pad : is_pad b64_pad = true.
Proof. reflexivity. Qed.

(** Decoding undoes encoding. *)
Lemma b64decode_b64encode (bs : list byte) : b64decode (b64encode bs) = Some bs.
Proof.
  induction bs as [| x | x y | x y z l IH] using list_ind3.
  - reflexivity.
  - pose proof (to_N_lt x) as Hx.
    destruct (@sextets_of_bytes (Byte.to_N x) 0 0 Hx ltac:(lia) ltac:(lia))
      as [[B1 [B2 [B3 B4]]] [E1 [E2 E3]]].
    cbn [b64encode b64decode].
    change (0 / 16) with 0 in *. rewrite N.add_0_r in *.
    rewrite (b64_value_char B1), (b64_value_char B2), is_pad_b64_pad. cbn [andb].
    rewrite E1, byte_of_N_to_N. reflexivity.
  - pose proof (to_N_lt x) as Hx. pose proof (to_N_lt y) as Hy.
    destruct (@sextets_of_bytes (Byte.to_N x) (Byte.to_N y) 0 Hx Hy ltac:(lia))
      as [[B1 [B2 [B3 B4]]] [E1 [E2 E3]]].
    cbn [b64encode b64decode].
    change (0 / 64) with 0 in *. rewrite N.add_0_r in *.
    rewrite (b64_value_char B1), (b64_value_char B2), (b64_value_char B3).
    rewrite (is_pad_char B3), is_pad_b64_pad. cbn [andb].
    rewrite E1, E2, !byte_of_N_to_N. reflexivity.
  - pose proof (to_N_lt x) as Hx. pose proof (to_N_lt y) as Hy. pose proof (to_N_lt z) as Hz.
    destruct (@sextets_of_bytes (Byte.to_N x) (Byte.to_N y) (Byte.to_N z) Hx Hy Hz)
      as [[B1 [B2 [B3 B4]]] [E1 [E2 E3]]].
    cbn [b64encode b64decode].
    rewrite (b64_value_char B1), (b64_value_char B2), (b64_value_char B3),
      (b64_value_char B4).
    rewrite (is_pad_char B3), (is_pad_char B4), IH. cbn [andb].
    rewrite E1, E2, E3, !byte_of_N_to_N. reflexivity.
Qed.

(** The encoded text is made of ASCII characters. *)
Lemma b64encode_ascii (bs : list byte) :
  Forall (fun ch => Byte.to_N ch < 128) (b64encode bs).
Proof.
  induction bs as [| x | x y | x y z l IH] using list_ind3.
  - constructor.
  - pose proof (to_N_lt x) as Hx.
    destruct (@sextets_of_bytes (Byte.to_N x) 0 0 Hx ltac:(lia) ltac:(lia))
      as [[B1 [B2 [B3 B4]]] _].
    change (0 / 16) with 0 in *. rewrite N.add_0_r in *.
    cbn [b64encode]. repeat constructor; try (apply b64_char_ascii; assumption).
  - pose proof (to_N_lt x) as Hx. pose proof (to_N_lt y) as Hy.
    destruct (@sextets_of_bytes (Byte.to_N x) (Byte.to_N y) 0 Hx Hy ltac:(lia))
      as [[B1 [B2 [B3 B4]]] _].
    change (0 / 64) with 0 in *. rewrite N.add_0_r in *.
    cbn [b64encode]. repeat constructor; try (apply b64_char_ascii; assumption).
  - pose proof (to_N_lt x) as Hx. pose proof (to_N_lt y) as Hy. pose proof (to_N_lt z) as Hz.
    destruct (@sextets_of_bytes (Byte.to_N x) (Byte.to_N y) (Byte.to_N z) Hx Hy Hz)
      as [[B1 [B2 [B3 B4]]] _].
    cbn [b64encode]. repeat (constructor; [apply b64_char_ascii; assumption|]). exact IH.
Qed.

Lemma string_of_list_byte_cons (b : byte) (bs : list byte) :
  string_of_list_byte (b :: bs) = String (ascii_of_byte b) (string_of_list_byte bs).
Proof. reflexivity. Qed.

Lemma decode_utf8_ascii (cs : list byte) :
  Forall (fun ch => Byte.to_N ch < 128) cs ->
  decode_utf8 cs = Some (string_of_list_byte cs).
Proof.
  induction 1 as [|ch cs Hch _ IH]; [reflexivity|].
  rewrite string_of_list_byte_cons. cbn [decode_utf8]. rewrite IH.
  destruct (N.ltb_spec (Byte.to_N ch) 128); [reflexivity|lia].
Qed.

Lemma encode_ascii_string_of_list_byte (cs : list byte) :
  Forall (fun ch => Byte.to_N ch < 128) cs ->
  encode_ascii (string_of_list_byte cs) = Some cs.
Proof.
  induction 1 as [|ch cs Hch _ IH]; [reflexivity|].
  rewrite string_of_list_byte_cons. cbn [encode_ascii]. rewrite IH.
  unfold code. rewrite ascii_of_byte_via_N, N_ascii_embedding by (pose proof (to_N_lt ch); lia).
  destruct (N.ltb_spec (Byte.to_N ch) 128); [|lia].
  rewrite <- ascii_of_byte_via_N, byte_of_ascii_of_byte. reflexivity.
Qed.

(** [b64encode(bs).decode("utf-8")] never raises: it is the encoded
    text, character by character. *)
Lemma decode_utf8_b64encode (bs : list byte) :
  decode_utf8 (b64encode bs) = Some (string_of_list_byte (b64encode bs)).
Proof. apply decode_utf8_ascii, b64encode_ascii. Qed.

(** Decoding the text gives the bytes back. *)
Lemma b64decode_str_b64encode (bs : list byte) :
  b64decode_str (string_of_list_byte (b64encode bs)) = Some bs.
Proof.
  unfold b64decode_str.
  rewrite encode_ascii_string_of_list_byte by apply b64encode_ascii.
  apply b64decode_b64encode.
Qed.

Lemma strip_prefix_app (p s : string) : strip_prefix p (p ++ s) = Some s.
Proof.
  induction p as [|a p IH]; [reflexivity|].
  simpl. rewrite Ascii.eqb_refl. exact IH.
Qed.

End Base64.

(** ** JSON texts *)

Section Json.

(** The scanner reads an escaped character back as the character. *)
Lemma scanstring_escape_char (c : ascii) (tail : string) :
  scanstring (json_escape_char c ++ tail) = cons_char c (scanstring tail).
Proof.
  destruct c as [[] [] [] [] [] [] [] []]; reflexivity.
Qed.

Lemma scanstring_escape (s rest : string) :
  scanstring (json_escape s ++ dquote ++ rest) = Scanned s rest.
Proof.
  induction s as [|c s IH]; [reflexivity|].
  cbn [json_escape]. rewrite append_assoc, scanstring_escape_char, IH. reflexivity.
Qed.

Lemma json_quote_app (s rest : string) :
  json_quote s ++ rest = String "034"%char (json_escape s ++ dquote ++ rest).
Proof. unfold json_quote. rewrite !append_assoc. reflexivity. Qed.

Lemma scan_once_quote (f : nat) (s rest : string) :
  scan_once (S f) (json_quote s ++ rest) = Scanned (PStr s) rest.
Proof.
  rewrite json_quote_app. cbn [scan_once]. rewrite scanstring_escape. reflexivity.
Qed.

Lemma scan_items_last (f : nat) (s rest : string) (v : PyValue) (acc : list PyValue) :
  scan_once f s = Scanned v (String "]"%char rest) ->
  scan_items (S f) s acc = Scanned (PList (rev (v :: acc))) rest.
Proof. intros H. cbn [scan_items]. rewrite H. reflexivity. Qed.

Lemma scan_items_more (f : nat) (s t more : string) (v : PyValue) (acc : list PyValue) :
  scan_once f s = Scanned v (", " ++ json_quote t ++ more) ->
  scan_items (S f) s acc = scan_items f (json_quote t ++ more) (v :: acc).
Proof.
  intros H. cbn [scan_items]. rewrite H, json_quote_app. reflexivity.
Qed.

Lemma join_cons2 (sep x y : string) (l : list string) :
  join sep (x :: y :: l) = x ++ sep ++ join sep (y :: l).
Proof. reflexivity. Qed.

Lemma join_quote_head (y : string) (l : list string) (tail : string) :
  exists more : string,
    join ", " (map json_quote (y :: l)) ++ tail = json_quote y ++ more.
Proof.
  destruct l as [|z l].
  - exists tail. reflexivity.
  - eexists. cbn [map]. rewrite join_cons2, append_assoc. reflexivity.
Qed.

(** [JSONArray] on the elements written by [json.dumps] for a list of
    strings. *)
Lemma scan_items_strings (l : list string) :
  forall (x : string) (f : nat) (acc : list PyValue) (rest : string),
    (List.length l < f)%nat ->
    scan_items (S f) (join ", " (map json_quote (x :: l)) ++ "]" ++ rest) acc =
    Scanned (PList (rev acc ++ map PStr (x :: l))%list) rest.
Proof.
  induction l as [|y l IH]; intros x f acc rest Hf.
  - destruct f as [|f]; [simpl in Hf; lia|].
    change (join ", " (map json_quote [x])) with (json_quote x).
    rewrite scan_items_last with (v := PStr x) (rest := rest)
      by apply scan_once_quote.
    reflexivity.
  - destruct f as [|f]; [simpl in Hf; lia|].
    specialize (IH y f (PStr x :: acc) rest ltac:(simpl in *; lia)).
    destruct (join_quote_head y l ("]" ++ rest)) as [more Hm].
    change (map json_quote (x :: y :: l))
      with (json_quote x :: map json_quote (y :: l)).
    change (join ", " (json_quote x :: map json_quote (y :: l)))
      with (json_quote x ++ ", " ++ join ", " (map json_quote (y :: l))).
    rewrite !append_assoc. 
    change (String "," (String " " (join ", " (map json_quote (y :: l)) ++ "]" ++ rest)))
      with (", " ++ (join ", " (map json_quote (y :: l)) ++ "]" ++ rest)).
    rewrite Hm.
    rewrite scan_items_more with (v := PStr x) (t := y) (more := more)
      by apply scan_once_quote.
    rewrite <- Hm, IH. cbn [rev map]. rewrite <- app_assoc. reflexivity.
Qed.

Lemma length_append (a b : string) :
  String.length (a ++ b) = (String.length a + String.length b)%nat.
Proof. induction a as [|c a IH]; simpl; [reflexivity|]. rewrite IH. reflexivity. Qed.

Lemma length_join_quotes (l : list string) :
  (List.length l <= String.length (join ", " (map json_quote l)))%nat.
Proof.
  induction l as [|x l IH]; [simpl; lia|].
  destruct l as [|y l].
  - change (join ", " (map json_quote [x])) with (json_quote x).
    unfold json_quote, dquote. simpl. lia.
  - cbn [map]. rewrite join_cons2, json_quote_app. cbn [map] in IH.
    cbn [String.length List.length]. rewrite !length_append.
    cbn [List.length] in IH. lia.
Qed.

(** [json.loads] reads back the array that [json.dumps] writes for a
    list of strings: the same strings, as many, in the same order. *)
Lemma json_loads_dumps_strings (l : list string) :
  json_loads (json_dumps (PList (map PStr l))) = Ret (PList (map PStr l)).
Proof.
  destruct l as [|x l]; [reflexivity|].
  cbn [json_dumps]. rewrite map_map.
  change (fun x0 : string => json_dumps (PStr x0)) with json_quote.
  unfold json_loads. cbn [append skip_ws]. change (is_ws "[") with false. cbv iota.
  pose proof (length_join_quotes (x :: l)) as Hlen.
  cbn [String.length]. rewrite length_append.
  remember (String.length (join ", " (map json_quote (x :: l)))) as n eqn:Hn.
  replace (2 * S (n + String.length "]") + 1)%nat
    with (S (S (2 * n + 3)))%nat by (simpl; lia).
  cbn [scan_once]. change (Ascii.eqb "[" "034") with false.
  change (Ascii.eqb "[" "[") with true. cbv iota.
  destruct (join_quote_head x l "]") as [more Hm].
  rewrite Hm, json_quote_app. cbn [skip_ws]. change (is_ws "034") with false.
  cbv iota. change (Ascii.eqb "034" "]") with false. cbv iota.
  rewrite <- json_quote_app, <- Hm.
  rewrite (@scan_items_strings l x _ [] "") by (cbn [List.length] in Hlen; lia).
  reflexivity.
Qed.

End Json.

(** *** The fuel of the scanner *)

Section Fuel.

Lemma skip_ws_length (s : string) : (String.length (skip_ws s) <= String.length s)%nat.
Proof.
  induction s as [|c s IH]; [simpl; lia|].
  cbn [skip_ws]. destruct (is_ws c); simpl in *; lia.
Qed.

Lemma skip_ws_cons_length (s : string) (d : ascii) (r : string) :
  skip_ws s = String d r -> (S (String.length r) <= String.length s)%nat.
Proof.
  intros H. pose proof (skip_ws_length s) as L. rewrite H in L. exact L.
Qed.

Lemma cons_char_some (c : ascii) (o : Scan string) (t r : string) :
  cons_char c o = Scanned t r -> exists t', o = Scanned t' r.
Proof.
  destruct o as [t' r'| | |]; simpl; intros H; try discriminate.
  inversion H; subst. exists t'. reflexivity.
Qed.

Lemma scanstring_length_bounded (bound : nat) :
  forall s t r, (String.length s < bound)%nat ->
    scanstring s = Scanned t r -> (String.length r < String.length s)%nat.
Proof.
  induction bound as [|bound IHn]; intros s t r Hn H; [lia|].
  assert (IH : forall s' t' r', (String.length s' < String.length s)%nat ->
            scanstring s' = Scanned t' r' -> (String.length r' < String.length s')%nat).
  { intros s' t' r' Hs'. apply IHn. lia. }
  clear IHn Hn.
  destruct s as [|c s]; [discriminate|].
  cbn [scanstring] in H.
  destruct (code c =? 34)%N.
  { inversion H; subst. simpl. lia. }
  destruct (code c =? 92)%N.
  { destruct s as [|e s1]; [discriminate|].
    destruct (code e =? 117)%N.
    - destruct s1 as [|h1 [|h2 [|h3 [|h4 r2]]]]; try discriminate.
      destruct (hex4 h1 h2 h3 h4) as [n|]; [|discriminate].
      destruct (n <? 256)%N; [|discriminate].
      apply cons_char_some in H. destruct H as [t' H].
      apply IH in H; simpl in *; lia.
    - destruct (unescape e); [|discriminate].
      apply cons_char_some in H. destruct H as [t' H].
      apply IH in H; simpl in *; lia. }
  destruct (code c <? 32)%N; [discriminate|].
  apply cons_char_some in H. destruct H as [t' H].
  apply IH in H; simpl in *; lia.
Qed.

Lemma scanstring_length (s t r : string) :
  scanstring s = Scanned t r -> (String.length r < String.length s)%nat.
Proof. apply (@scanstring_length_bounded (S (String.length s))). lia. Qed.

Lemma strip_prefix_length (p s r : string) :
  strip_prefix p s = Some r -> (String.length r + String.length p = String.length s)%nat.
Proof.
  revert s. induction p as [|a p IH]; intros s H.
  - inversion H; subst. simpl. lia.
  - destruct s as [|b s]; [discriminate|]. cbn [strip_prefix] in H.
    destruct (Ascii.eqb a b); [|discriminate]. apply IH in H. simpl. lia.
Qed.

Lemma scan_digits_length (s : string) :
  forall acc, (String.length (snd (scan_digits s acc)) <= String.length s)%nat.
Proof.
  induction s as [|c s IH]; intros acc; [simpl; lia|].
  cbn [scan_digits]. destruct (is_digit c); [|simpl; lia].
  specialize (IH (10 * acc + (code c - 48))%N). cbn [String.length]. lia.
Qed.

Lemma scan_number_length (s : string) (v : PyValue) (r : string) :
  scan_number s = Scanned v r -> (String.length r < String.length s)%nat.
Proof.
  unfold scan_number. intros H.
  destruct s as [|c r0]; [discriminate|].
  destruct (Ascii.eqb c "-").
  - destruct r0 as [|d r1]; [discriminate|].
    destruct (is_digit d) eqn:Hd; cbn [negb] in H; [|discriminate].
    destruct (Ascii.eqb d "0").
    + destruct (float_tail r1); [discriminate|].
      inversion H; subst. cbn [String.length]. lia.
    + pose proof (scan_digits_length r1 (10 * 0 + (code d - 48))%N) as L.
      cbn [scan_digits] in H. rewrite Hd in H.
      destruct (scan_digits r1 (10 * 0 + (code d - 48))%N) as [n rest]. cbn [snd] in L.
      destruct (float_tail rest); [discriminate|].
      inversion H; subst. cbn [String.length] in *. lia.
  - destruct (is_digit c) eqn:Hd; cbn [negb] in H; [|discriminate].
    destruct (Ascii.eqb c "0").
    + destruct (float_tail r0); [discriminate|].
      inversion H; subst. cbn [String.length]. lia.
    + pose proof (scan_digits_length r0 (10 * 0 + (code c - 48))%N) as L.
      cbn [scan_digits] in H. rewrite Hd in H.
      destruct (scan_digits r0 (10 * 0 + (code c - 48))%N) as [n rest]. cbn [snd] in L.
      destruct (float_tail rest); [discriminate|].
      inversion H; subst. cbn [String.length] in *. lia.
Qed.

Lemma scan_literal_length (s : string) (v : PyValue) (r : string) :
  scan_literal s = Scanned v r -> (String.length r < String.length s)%nat.
Proof.
  unfold scan_literal. intros H.
  destruct (strip_prefix "null" s) eqn:E1.
  { inversion H; subst. apply strip_prefix_length in E1. simpl in E1. lia. }
  destruct (strip_prefix "true" s) eqn:E2.
  { inversion H; subst. apply strip_prefix_length in E2. simpl in E2. lia. }
  destruct (strip_prefix "false" s) eqn:E3.
  { inversion H; subst. apply strip_prefix_length in E3. simpl in E3. lia. }
  destruct (scan_number s) as [v0 r0| | |] eqn:En; try discriminate.
  - inversion H; subst. apply scan_number_length in En. exact En.
  - destruct (float_constant s); discriminate.
Qed.

Lemma scan_literal_not_exhausted (s : string) : scan_literal s <> Exhausted.
Proof.
  unfold scan_literal.
  destruct (strip_prefix "null" s); [discriminate|].
  destruct (strip_prefix "true" s); [discriminate|].
  destruct (strip_prefix "false" s); [discriminate|].
  assert (Hn : scan_number s <> Exhausted).
  { unfold scan_number.
    destruct s as [|c r0]; [discriminate|].
    destruct (Ascii.eqb c "-").
    - destruct r0 as [|d r1]; [discriminate|].
      destruct (negb (is_digit d)); [discriminate|].
      destruct (if Ascii.eqb d "0" then (0%N, r1) else scan_digits (String d r1) 0)
        as [n rest].
      destruct (float_tail rest); discriminate.
    - destruct (negb (is_digit c)); [discriminate|].
      destruct (if Ascii.eqb c "0" then (0%N, r0) else scan_digits (String c r0) 0)
        as [n rest].
      destruct (float_tail rest); discriminate. }
  destruct (scan_number s); try discriminate; try congruence.
  destruct (float_constant s); discriminate.
Qed.

Lemma scanstring_not_exhausted (s : string) : scanstring s <> Exhausted.
Proof.
  assert (Hc : forall c o, o <> Exhausted -> cons_char c o <> @Exhausted string).
  { intros c [t r| | |] Ho; cbn [cons_char]; congruence. }
  remember (String.length s) as n eqn:Hn.
  revert s Hn. induction n as [n IH] using lt_wf_ind. intros s Hn.
  destruct s as [|c s]; [discriminate|]. cbn [scanstring].
  destruct (code c =? 34)%N; [discriminate|].
  destruct (code c =? 92)%N.
  { destruct s as [|e s1]; [discriminate|].
    destruct (code e =? 117)%N.
    - destruct s1 as [|h1 [|h2 [|h3 [|h4 r2]]]]; try discriminate.
      destruct (hex4 h1 h2 h3 h4) as [m|]; [|discriminate].
      destruct (m <? 256)%N; [|discriminate].
      apply Hc. apply (IH (String.length r2)); [subst; simpl; lia|reflexivity].
    - destruct (unescape e); [|discriminate].
      apply Hc. apply (IH (String.length s1)); [subst; simpl; lia|reflexivity]. }
  destruct (code c <? 32)%N; [discriminate|].
  apply Hc. apply (IH (String.length s)); [subst; simpl; lia|reflexivity].
Qed.

Ltac scan_cases H :=
  repeat match type of H with
  | context [match scanstring ?x with _ => _ end] =>
      let E := fresh "Estr" in
      destruct (scanstring x) as [? ?| | |] eqn:E;
      [apply scanstring_length in E| | |]
  | context [match skip_ws ?x with _ => _ end] =>
      let E := fresh "Ews" in
      destruct (skip_ws x) as [|? ?] eqn:E;
      [|apply skip_ws_cons_length in E]
  | context [if ?b then _ else _] => destruct b
  end.

Ltac goal_cases :=
  repeat match goal with
  | |- context [match scanstring ?x with _ => _ end] =>
      let E := fresh "Estr" in
      destruct (scanstring x) as [? ?| | |] eqn:E;
      [apply scanstring_length in E| |apply scanstring_not_exhausted in E; destruct E|]
  | |- context [match skip_ws ?x with _ => _ end] =>
      let E := fresh "Ews" in
      destruct (skip_ws x) as [|? ?] eqn:E;
      [|apply skip_ws_cons_length in E]
  | |- context [if ?b then _ else _] => destruct b
  end.

Ltac note_ws x :=
  lazymatch goal with
  | _ : (String.length (skip_ws x) <= String.length x)%nat |- _ => fail
  | _ => pose proof (skip_ws_length x)
  end.

Ltac ws_facts :=
  repeat match goal with
  | |- context [skip_ws ?x] => note_ws x
  | _ : context [skip_ws ?x] |- _ => note_ws x
  end.

(** Every successful scan consumes input, and no scan runs out of fuel
    when it is given more than twice the length of its input. *)
Lemma scan_fuel (f : nat) :
  (forall s,
     ((2 * String.length s < f)%nat -> scan_once f s <> Exhausted)
     /\ (forall v r, scan_once f s = Scanned v r ->
                     (String.length r < String.length s)%nat))
  /\ (forall s acc,
     ((2 * String.length s + 1 < f)%nat -> scan_items f s acc <> Exhausted)
     /\ (forall v r, scan_items f s acc = Scanned v r ->
                     (String.length r < String.length s)%nat))
  /\ (forall s acc,
     ((2 * String.length s < f)%nat -> scan_pairs f s acc <> Exhausted)
     /\ (forall v r, scan_pairs f s acc = Scanned v r ->
                     (String.length r < String.length s)%nat)).
Proof.
  induction f as [|f [IHo [IHi IHp]]].
  - repeat split; intros; try lia; discriminate.
  - split; [|split].
    + intros s. split.
      * intros Hf. destruct s as [|c r]; [discriminate|]. cbn [scan_once].
        cbn [String.length] in Hf.
        goal_cases; try discriminate;
          try (apply IHi; cbn [String.length]; lia);
          try (apply IHp; lia);
          apply scan_literal_not_exhausted.
      * intros v r' H. destruct s as [|c r]; [discriminate|]. cbn [scan_once] in H.
        scan_cases H; try discriminate;
          try (apply IHi in H; cbn [String.length] in *; lia);
          try (apply IHp in H; cbn [String.length] in *; lia);
          try (apply scan_literal_length in H; exact H);
          inversion H; subst; cbn [String.length] in *; lia.
    + intros s acc. split.
      * intros Hf. cbn [scan_items].
        destruct (scan_once f s) as [v r| | |] eqn:Eo; try discriminate.
        -- apply IHo in Eo. ws_facts. goal_cases; try discriminate.
           apply IHi. ws_facts. lia.
        -- exfalso. revert Eo. apply IHo. lia.
      * intros v r' H. cbn [scan_items] in H.
        destruct (scan_once f s) as [v0 r| | |] eqn:Eo; try discriminate.
        apply IHo in Eo. ws_facts. scan_cases H; try discriminate;
          try (apply IHi in H; ws_facts; lia);
          inversion H; subst; cbn [String.length] in *; lia.
    + intros s acc. split.
      * intros Hf. cbn [scan_pairs].
        destruct (scanstring s) as [k r| | |] eqn:Estr; try discriminate;
          [|apply scanstring_not_exhausted in Estr; destruct Estr].
        apply scanstring_length in Estr.
        destruct (skip_ws r) as [|d r1] eqn:Ews; [discriminate|].
        apply skip_ws_cons_length in Ews.
        destruct (negb (Ascii.eqb d ":")); [discriminate|].
        pose proof (skip_ws_length r1) as L1.
        destruct (scan_once f (skip_ws r1)) as [v r2| | |] eqn:Eo; try discriminate.
        -- apply IHo in Eo. goal_cases; try discriminate.
           apply IHp. lia.
        -- exfalso. revert Eo. apply IHo. lia.
      * intros v r' H. cbn [scan_pairs] in H.
        destruct (scanstring s) as [k r| | |] eqn:Estr; try discriminate.
        apply scanstring_length in Estr.
        destruct (skip_ws r) as [|d r1] eqn:Ews; [discriminate|].
        apply skip_ws_cons_length in Ews.
        destruct (negb (Ascii.eqb d ":")); [discriminate|].
        pose proof (skip_ws_length r1) as L1.
        destruct (scan_once f (skip_ws r1)) as [v0 r2| | |] eqn:Eo; try discriminate.
        apply IHo in Eo. scan_cases H; try discriminate;
          try (apply IHp in H; lia);
          inversion H; subst; cbn [String.length] in *; lia.
Qed.

(** With the fuel that [json_loads] supplies the scanner never stops for
    want of fuel. *)
Lemma scan_once_fuel (s : string) :
  scan_once (2 * String.length s + 1) s <> Exhausted.
Proof. apply scan_fuel. lia. Qed.

(** Hence [json_loads] never reports a recursion error. *)
Lemma json_loads_not_exhausted (s : string) : json_loads s <> Raise RecursionError.
Proof.
  unfold json_loads.
  pose proof (scan_once_fuel (skip_ws s)) as H.
  destruct (scan_once (2 * String.length (skip_ws s) + 1) (skip_ws s)) as [v r| | |].
  - destruct (skip_ws r); discriminate.
  - discriminate.
  - congruence.
  - discriminate.
Qed.

End Fuel.

(** ** The handlers *)

Section HandlerProperties.

Context {X : External}.

Lemma call_returns (A : Type) (op : Op St A) (w : World) (a : A) (s : St) :
  op (ext w) = (Ret a, s) -> call op w = (Ret a, with_ext w s).
Proof. intros H. unfold call. rewrite H. reflexivity. Qed.

Lemma call_raises (A : Type) (op : Op St A) (w : World) (e : Exn) (s : St) :
  op (ext w) = (Raise e, s) -> call op w = (Raise e, with_ext w s).
Proof. intros H. unfold call. rewrite H. reflexivity. Qed.

(** *** Screenshots *)

(** C1.  The claim fails on [take_screenshot] and [execute_js]: neither
    guards its driver call, so an exception raised by [page.screenshot]
    or [page.evaluate] leaves the handler as it is and no [ActionResult]
    is produced. *)
Theorem unguarded_handlers_propagate
    (w : World) (p : Page) (s1 s2 : St) (e : Exn) (script : string) :
  get_current_page (ext w) = (Ret p, s1) ->
  screenshot p false s1 = (Raise e, s2) ->
  evaluate p script s1 = (Raise e, s2) ->
  take_screenshot w = (Raise e, with_ext w s2)
  /\ execute_js script w = (Raise e, with_ext w s2).
Proof.
  intros Hpage Hshot Heval. split.
  - unfold take_screenshot, bind. rewrite (call_returns _ _ Hpage).
    rewrite call_raises with (e := e) (s := s2) by exact Hshot. reflexivity.
  - unfold execute_js, bind. rewrite (call_returns _ _ Hpage).
    rewrite call_raises with (e := e) (s := s2) by exact Heval. reflexivity.
Qed.

(** X1.  The sibling [take_full_page_screenshot] guards the same call
    and turns the exception into a [Failure] that carries its text. *)
Lemma take_full_page_screenshot_catches
    (w : World) (p : Page) (s1 s2 : St) (e : Exn) :
  get_current_page (ext w) = (Ret p, s1) ->
  screenshot p true s1 = (Raise e, s2) ->
  take_full_page_screenshot w = (Ret (Failure (exn_str e)), with_ext w s2).
Proof.
  intros Hpage Hshot.
  unfold take_full_page_screenshot, bind, try_except.
  rewrite (call_returns _ _ Hpage).
  rewrite call_raises with (e := e) (s := s2) by exact Hshot. reflexivity.
Qed.

(** C6.  When the driver returns the bytes [bs] for the screenshot, the
    viewport action ([full_page = false]) and the full-page action
    ([full_page = true]) both succeed with the data-URL prefix followed
    by the base64 text of [bs]; stripping the prefix leaves that text,
    and decoding it gives [bs] back, hence as many bytes as the raw
    screenshot has. *)
Theorem screenshot_payload_decodes
    (full_page : bool) (w : World) (p : Page) (s1 s2 : St) (bs : list byte) :
  get_current_page (ext w) = (Ret p, s1) ->
  screenshot p full_page s1 = (Ret bs, s2) ->
  (if full_page then take_full_page_screenshot else take_screenshot) w =
    (Ret (Success (data_url_prefix ++ string_of_list_byte (b64encode bs))),
     with_ext w s2)
  /\ strip_prefix data_url_prefix
       (data_url_prefix ++ string_of_list_byte (b64encode bs)) =
     Some (string_of_list_byte (b64encode bs))
  /\ exists decoded : list byte,
       b64decode_str (string_of_list_byte (b64encode bs)) = Some decoded
       /\ decoded = bs
       /\ List.length decoded = List.length bs.
Proof.
  intros Hpage Hshot. split; [|split].
  - destruct full_page.
    + unfold take_full_page_screenshot, bind, try_except.
      rewrite (call_returns _ _ Hpage).
      rewrite call_returns with (a := bs) (s := s2) by exact Hshot.
      unfold bytes_decode. rewrite decode_utf8_b64encode. reflexivity.
    + unfold take_screenshot, bind.
      rewrite (call_returns _ _ Hpage).
      rewrite call_returns with (a := bs) (s := s2) by exact Hshot.
      unfold bytes_decode. rewrite decode_utf8_b64encode. reflexivity.
  - apply strip_prefix_app.
  - exists bs. split; [apply b64decode_str_b64encode|split; reflexivity].
Qed.

(** *** Links *)

(** C7.  When the evaluation of the link script yields the [href] values
    of the anchors of the page, [extract_all_links] succeeds with the
    [json.dumps] text of that list, and [json.loads] reads the text as
    the array of those strings: as many as there are anchors, in the
    order the driver gave them. *)
Theorem extract_all_links_json_array
    (w : World) (p : Page) (s1 s2 : St) (hrefs : list string) :
  get_current_page (ext w) = (Ret p, s1) ->
  evaluate p links_script s1 = (Ret (PList (map PStr hrefs)), s2) ->
  extract_all_links w =
    (Ret (Success (json_dumps (PList (map PStr hrefs)))), with_ext w s2)
  /\ json_loads (json_dumps (PList (map PStr hrefs))) = Ret (PList (map PStr hrefs))
  /\ List.length (map PStr hrefs) = List.length hrefs.
Proof.
  intros Hpage Heval. split; [|split].
  - unfold extract_all_links, bind, try_except.
    rewrite (call_returns _ _ Hpage).
    rewrite call_returns with (a := PList (map PStr hrefs)) (s := s2) by exact Heval.
    reflexivity.
  - apply json_loads_dumps_strings.
  - apply length_map.
Qed.

(** *** Network capture *)

Lemma heap_append_app_new (h : list (list string)) (l : list string) (x : string) :
  heap_append (List.length h) x (h ++ [l])%list = (h ++ [(l ++ [x])%list])%list.
Proof.
  induction h as [|l0 h IH]; [reflexivity|].
  cbn [List.length app heap_append]. rewrite IH. reflexivity.
Qed.

(** The listener fills the list it captured, one address per request. *)
Lemma on_request_appends (h : list (list string)) (urls : list string) :
  forall (l : list string) (s : St) (tr : list Event),
    for_ urls (on_request (OnRequestAppend (List.length h)))
      {| ext := s; heap := (h ++ [l])%list; events := tr |} =
    (Ret tt, {| ext := s; heap := (h ++ [(l ++ urls)%list])%list; events := tr |}).
Proof.
  induction urls as [|u urls IH]; intros l s tr.
  - cbn [for_]. rewrite app_nil_r. reflexivity.
  - cbn [for_]. unfold bind at 1. cbn [on_request]. unfold list_append at 1.
    cbn [ext heap events]. rewrite heap_append_app_new, IH, <- app_assoc. reflexivity.
Qed.

(** C8.  When the driver calls succeed, [capture_network_requests]
    returns the text of the empty JSON array: the list is serialised
    right after the listener is registered, before any request can reach
    it.  The requests the page makes later reach the list, not the
    content that was returned. *)
Theorem capture_network_requests_returns_empty_array
    (w : World) (p : Page) (s1 s2 : St) :
  get_current_page (ext w) = (Ret p, s1) ->
  page_on p "request" (OnRequestAppend (List.length (heap w))) s1 = (Ret tt, s2) ->
  capture_network_requests w =
    (Ret (Success "[]"),
     {| ext := s2; heap := (heap w ++ [[]])%list; events := events w |})
  /\ forall urls : list string,
       for_ urls (on_request (OnRequestAppend (List.length (heap w))))
         {| ext := s2; heap := (heap w ++ [[]])%list; events := events w |} =
       (Ret tt, {| ext := s2; heap := (heap w ++ [urls])%list; events := events w |}).
Proof.
  intros Hpage Hon. split.
  - unfold capture_network_requests, bind, try_except.
    rewrite (call_returns _ _ Hpage).
    unfold new_list at 1. cbn [ext heap events with_ext].
    unfold call at 1. cbn [ext heap events]. rewrite Hon.
    unfold read_list, ret. cbn [ext heap events].
    rewrite nth_middle. reflexivity.
  - intros urls. apply (on_request_appends (heap w) urls []).
Qed.

(** *** The external API call *)

(** C10.  For a method other than ["GET"] and ["POST"] the handler
    returns a [Failure] and never a success: no branch binds [result],
    the fault raised on reading it (or an earlier fault of the HTTP
    client) is caught by the handler's own [except], and the trace gains
    no event, so no HTTP request is started. *)
Theorem call_external_api_other_method_fails
    (url method : string) (data : option string) (w : World) :
  method <> "GET" ->
  method <> "POST" ->
  exists (message : string) (w' : World),
    call_external_api url method data w = (Ret (Failure message), w')
    /\ events w' = events w.
Proof.
  intros Hget Hpost.
  apply String.eqb_neq in Hget. apply String.eqb_neq in Hpost.
  unfold call_external_api. rewrite Hget, Hpost.
  unfold try_except, bind, async_with, try_except, bind, call, ret, raise, on_error, ret.
  destruct (import_aiohttp (ext w)) as [[u|e] s]; cbn [ext heap events];
    [|eexists; eexists; split; reflexivity].
  destruct (client_session_enter s) as [[session|e] s']; cbn [ext heap events];
    [|eexists; eexists; split; reflexivity].
  destruct (client_session_exit session (Some UnboundLocalError_result) s')
    as [[u'|e] s'']; cbn [ext heap events];
    eexists; eexists; split; reflexivity.
Qed.

(** X2.  On the way where the HTTP client itself works, the message is
    the text of the unbound-variable fault. *)
Lemma call_external_api_unbound_result
    (url method : string) (data : option string) (w : World)
    (session : ClientSession) (s1 s2 s3 : St) :
  method <> "GET" ->
  method <> "POST" ->
  import_aiohttp (ext w) = (Ret tt, s1) ->
  client_session_enter s1 = (Ret session, s2) ->
  client_session_exit session (Some UnboundLocalError_result) s2 = (Ret tt, s3) ->
  call_external_api url method data w =
    (Ret (Failure (exn_str UnboundLocalError_result)), with_ext w s3).
Proof.
  intros Hget Hpost Himp Henter Hexit.
  apply String.eqb_neq in Hget. apply String.eqb_neq in Hpost.
  unfold call_external_api. rewrite Hget, Hpost.
  unfold try_except, bind, async_with, try_except, bind, call, ret, raise, on_error, ret.
  rewrite Himp. cbn [ext heap events]. rewrite Henter. cbn [ext heap events].
  rewrite Hexit. reflexivity.
Qed.

(** *** The shape of the results *)

Lemma returns_ret (A : Type) (a : A) (P : A -> Prop) : P a -> Returns (ret a) P.
Proof. intros H w a' w' E. inversion E; subst. exact H. Qed.


Lemma returns_bind (A B : Type) (m : M A) (k : A -> M B) (P : B -> Prop) :
  (forall a, Returns (k a) P) -> Returns (bind m k) P.
Proof.
  intros H w b w' E. unfold bind in E.
  destruct (m w) as [[a|e] w1]; [|discriminate]. exact (H a w1 b w' E).
Qed.










End HandlerProperties.

(** ** Runs on the scripted collaborator *)

(** A session whose screenshot and script evaluation both raise. *)
Lemma unguarded_handlers_propagate_witness :
  take_screenshot
    (sim_world (mkSim "" [] (Raise (boom "shot")) (Raise (boom "shot")) [] [])) =
    (Raise (boom "shot"),
     sim_world (mkSim "" [] (Raise (boom "shot")) (Raise (boom "shot")) [] []))
  /\ execute_js "document.title"
       (sim_world (mkSim "" [] (Raise (boom "shot")) (Raise (boom "shot")) [] [])) =
     (Raise (boom "shot"),
      sim_world (mkSim "" [] (Raise (boom "shot")) (Raise (boom "shot")) [] [])).
Proof.
  apply (@unguarded_handlers_propagate Sim
           (sim_world (mkSim "" [] (Raise (boom "shot")) (Raise (boom "shot")) [] []))
           tt
           (mkSim "" [] (Raise (boom "shot")) (Raise (boom "shot")) [] [])
           (mkSim "" [] (Raise (boom "shot")) (Raise (boom "shot")) [] [])
           (boom "shot") "document.title");
    reflexivity.
Defined.

(** The same raising screenshot under the guarded sibling. *)
Lemma take_full_page_screenshot_catches_witness :
  take_full_page_screenshot
    (sim_world (mkSim "" [] (Raise (boom "shot")) (Ret PNone) [] [])) =
    (Ret (Failure "boom shot"),
     sim_world (mkSim "" [] (Raise (boom "shot")) (Ret PNone) [] [])).
Proof.
  apply (@take_full_page_screenshot_catches Sim
           (sim_world (mkSim "" [] (Raise (boom "shot")) (Ret PNone) [] []))
           tt
           (mkSim "" [] (Raise (boom "shot")) (Ret PNone) [] [])
           (mkSim "" [] (Raise (boom "shot")) (Ret PNone) [] [])
           (boom "shot"));
    reflexivity.
Defined.

(** A viewport screenshot of four bytes. *)
Lemma screenshot_payload_decodes_witness :
  take_screenshot (sim_world (sim_with_image (Ret (list_byte_of_string "PNG!")))) =
    (Ret (Success "data:image/png;base64,UE5HIQ=="),
     sim_world (sim_with_image (Ret (list_byte_of_string "PNG!"))))
  /\ strip_prefix data_url_prefix "data:image/png;base64,UE5HIQ==" = Some "UE5HIQ=="
  /\ exists decoded : list byte,
       b64decode_str "UE5HIQ==" = Some decoded
       /\ decoded = list_byte_of_string "PNG!"
       /\ List.length decoded = 4%nat.
Proof.
  apply (@screenshot_payload_decodes Sim false
           (sim_world (sim_with_image (Ret (list_byte_of_string "PNG!"))))
           tt
           (sim_with_image (Ret (list_byte_of_string "PNG!")))
           (sim_with_image (Ret (list_byte_of_string "PNG!")))
           (list_byte_of_string "PNG!"));
    reflexivity.
Defined.

(** A page with two anchors. *)
Lemma extract_all_links_json_array_witness :
  extract_all_links
    (sim_world (sim_with_eval
       (Ret (PList [PStr "https://a.example/"; PStr "https://b.example/x?y=1"])))) =
    (Ret (Success (json_dumps
            (PList [PStr "https://a.example/"; PStr "https://b.example/x?y=1"]))),
     sim_world (sim_with_eval
       (Ret (PList [PStr "https://a.example/"; PStr "https://b.example/x?y=1"]))))
  /\ json_loads (json_dumps
                   (PList [PStr "https://a.example/"; PStr "https://b.example/x?y=1"])) =
     Ret (PList [PStr "https://a.example/"; PStr "https://b.example/x?y=1"])
  /\ List.length [PStr "https://a.example/"; PStr "https://b.example/x?y=1"] = 2%nat.
Proof.
  apply (@extract_all_links_json_array Sim
           (sim_world (sim_with_eval
              (Ret (PList [PStr "https://a.example/"; PStr "https://b.example/x?y=1"]))))
           tt
           (sim_with_eval
              (Ret (PList [PStr "https://a.example/"; PStr "https://b.example/x?y=1"])))
           (sim_with_eval
              (Ret (PList [PStr "https://a.example/"; PStr "https://b.example/x?y=1"])))
           ["https://a.example/"; "https://b.example/x?y=1"]);
    reflexivity.
Defined.

(** A fresh session: the listener is registered and the content is
    ["[]"]. *)
Lemma capture_network_requests_returns_empty_array_witness :
  capture_network_requests (sim_world sim_state) =
    (Ret (Success "[]"),
     {| ext := mkSim "" [] (Ret []) (Ret PNone) [("request", OnRequestAppend 0)] [];
        heap := [[]]; events := [] |})
  /\ forall urls : list string,
       for_ urls (on_request (OnRequestAppend 0))
         {| ext := mkSim "" [] (Ret []) (Ret PNone) [("request", OnRequestAppend 0)] [];
            heap := [[]]; events := [] |} =
       (Ret tt,
        {| ext := mkSim "" [] (Ret []) (Ret PNone) [("request", OnRequestAppend 0)] [];
           heap := [urls]; events := [] |}).
Proof.
  apply (@capture_network_requests_returns_empty_array Sim
           (sim_world sim_state) tt sim_state
           (mkSim "" [] (Ret []) (Ret PNone) [("request", OnRequestAppend 0)] []));
    reflexivity.
Defined.

(** A [PUT] on the scripted HTTP client. *)
Lemma call_external_api_other_method_fails_witness :
  exists (message : string) (w' : @World Sim),
    call_external_api "https://api.example/items" "PUT" None (sim_world sim_state) =
      (Ret (Failure message), w')
    /\ events w' = events (sim_world sim_state).
Proof.
  apply (@call_external_api_other_method_fails Sim
           "https://api.example/items" "PUT" None (sim_world sim_state));
    discriminate.
Defined.

(** The same [PUT], with the message it ends in. *)
Lemma call_external_api_unbound_result_witness :
  call_external_api "https://api.example/items" "PUT" None (sim_world sim_state) =
    (Ret (Failure
       "cannot access local variable 'result' where it is not associated with a value"),
     sim_world sim_state).
Proof.
  apply (@call_external_api_unbound_result Sim
           "https://api.example/items" "PUT" None (sim_world sim_state)
           tt sim_state sim_state sim_state);
    first [discriminate | reflexivity].
Defined.



(** C5.  The claim fails on [get_cookies]: after [set_cookies] has
    stored a collection given as JSON text, [get_cookies] answers with
    the [str()] rendering of the driver's list, with single quotes, which
    [json.loads] rejects; [json.dumps] of the same list would read back. *)
Theorem get_cookies_returns_python_rendering :
  set_cookies sample_cookies_json (sim_world sim_state) =
    (Ret (Success "Cookies set"),
     sim_world (sim_with_jar [PDict [("name", PStr "sid"); ("value", PStr "abc");
                                      ("url", PStr "https://example.com")]]))
  /\ get_cookies
       (sim_world (sim_with_jar [PDict [("name", PStr "sid"); ("value", PStr "abc");
                                         ("url", PStr "https://example.com")]])) =
     (Ret (Success "[{'name': 'sid', 'value': 'abc', 'url': 'https://example.com'}]"),
      sim_world (sim_with_jar [PDict [("name", PStr "sid"); ("value", PStr "abc");
                                       ("url", PStr "https://example.com")]]))
  /\ json_loads "[{'name': 'sid', 'value': 'abc', 'url': 'https://example.com'}]" =
     Raise JSONDecodeError
  /\ json_loads (json_dumps sample_cookies) = Ret sample_cookies.
Proof. repeat split; vm_compute; reflexivity. Qed.

(* ================================================================== *)
(** ** Further properties of the handlers *)

Ltac head_symbol t :=
  lazymatch t with
  | ?f _ => head_symbol f
  | _ => t
  end.

Section GuardedHandlers.

Context {X : External}.

Lemma try_except_on_error_returns (body : M ActionResult) (w : World) :
  exists (r : ActionResult) (w' : World), try_except body on_error w = (Ret r, w').
Proof.
  unfold try_except. destruct (body w) as [[r|e] w1].
  - exists r, w1. reflexivity.
  - exists (Failure (exn_str e)), w1. reflexivity.
Qed.

(** X3.  A handler that runs its driver operations inside
    [try ... except Exception] lets none of their exceptions of class
    [Exception] out: once the page lookup has returned, whether the
    operations behind it return or raise such an exception, the
    invocation ends in a result.  (An exception outside [Exception],
    such as a cancellation, is not a value of [Exn] and is not spoken
    of.) *)
Theorem guarded_handlers_catch_exceptions
    (a : Action) (w : World) (p : Page) (s1 : St) :
  guards_driver_call a = true ->
  get_current_page (ext w) = (Ret p, s1) ->
  exists (r : ActionResult) (w' : World), invoke a w = (Ret r, w').
Proof.
  intros Hg Hpage.
  destruct a; try discriminate Hg; cbn [invoke];
    match goal with |- exists _ _, ?m _ = _ => let h := head_symbol m in unfold h end;
    unfold bind at 1; rewrite (call_returns _ _ Hpage);
    apply try_except_on_error_returns.
Qed.

(** X4.  The whole body of [call_external_api] sits in the [try]: for
    all arguments, whether the import, the HTTP client and the decoding
    of the body return or raise an exception of class [Exception], the
    invocation ends in a result. *)
Theorem call_external_api_catches_exceptions
    (url method : string) (data : option string) (w : World) :
  exists (r : ActionResult) (w' : World),
    call_external_api url method data w = (Ret r, w').
Proof. unfold call_external_api. apply try_except_on_error_returns. Qed.

(** X5.  The page lookup itself is outside every [try]: when
    [get_current_page] raises, each handler that starts with the lookup
    lets the exception through, guarded or not, and does nothing else. *)
Theorem page_lookup_failure_propagates
    (a : Action) (w : World) (e : Exn) (s1 : St) :
  looks_up_page_first a = true ->
  get_current_page (ext w) = (Raise e, s1) ->
  invoke a w = (Raise e, with_ext w s1).
Proof.
  intros Hl Hpage.
  destruct a; try discriminate Hl; cbn [invoke];
    match goal with |- ?m _ = _ => let h := head_symbol m in unfold h end;
    unfold bind at 1; rewrite (call_raises _ _ Hpage); reflexivity.
Qed.

Lemma returns_success (s : string) :
  Returns (ret (Success s))
          (fun r => error r = None /\ is_set (extracted_content r) = true).
Proof. apply returns_ret. split; reflexivity. Qed.

(** X6.  A handler without an [except] branch never produces a
    [Failure]: whenever it returns, the result is a success; a fault of
    the driver can only leave it as an exception. *)
Theorem unguarded_handlers_never_return_failure
    (a : Action) (w : World) (r : ActionResult) (w' : World) :
  has_no_except a = true ->
  invoke a w = (Ret r, w') ->
  error r = None /\ is_set (extracted_content r) = true.
Proof.
  intros Hu Hrun.
  assert (H : Returns (invoke a)
                (fun r => error r = None /\ is_set (extracted_content r) = true)).
  { clear w r w' Hrun. destruct a; try discriminate Hu; cbn [invoke];
      match goal with |- Returns ?m _ => let h := head_symbol m in unfold h end;
      repeat first [apply returns_success | apply returns_bind; intros ?]. }
  exact (H w r w' Hrun).
Qed.

End GuardedHandlers.

Section RetryBounds.

Context {X : External}.

Lemma retry_body_cases (name : string) (i : Z) (w : World) :
  (exists r s, retry_body name i w =
     (Ret (Some r),
      {| ext := s; heap := heap w; events := (events w ++ [EvExecute name])%list |}))
  \/ (exists e s, retry_body name i w =
     (Ret None,
      {| ext := s; heap := heap w;
         events := (events w ++ failed_attempts name (i + 1) [e])%list |})).
Proof.
  destruct (execute_action name (ext w)) as [[r|e] s] eqn:E.
  - left. exists r, s. apply retry_body_returns. exact E.
  - right. exists e, s. apply retry_body_raises. exact E.
Qed.

Lemma retry_loop_bounded (name : string) (r0 : ActionResult) (l : list Z) :
  forall w : World,
    exists (r : ActionResult) (w' : World) (tr : list Event),
      for_each l (retry_body name) (ret r0) w = (Ret r, w')
      /\ events w' = (events w ++ tr)%list
      /\ heap w' = heap w
      /\ (executions tr <= List.length l)%nat.
Proof.
  induction l as [|i l IH]; intros w.
  - exists r0, w, []. cbn. rewrite app_nil_r. repeat split. lia.
  - cbn [for_each]. unfold bind.
    destruct (retry_body_cases name i w) as [[r [s E]]|[e [s E]]]; rewrite E.
    + eexists r, _, [EvExecute name]. split; [reflexivity|].
      cbn [events heap List.length]. repeat split. cbn. lia.
    + destruct (IH {| ext := s; heap := heap w;
                      events := (events w ++ failed_attempts name (i + 1) [e])%list |})
        as [r [w' [tr [Hrun [Hev [Hheap Hn]]]]]].
      exists r, w', (failed_attempts name (i + 1) [e] ++ tr)%list.
      split; [exact Hrun|]. cbn [events heap] in Hev, Hheap.
      split; [rewrite Hev, app_assoc; reflexivity|].
      split; [exact Hheap|].
      rewrite executions_app. cbn [List.length]. 
      change (executions (failed_attempts name (i + 1) [e])) with 1%nat. lia.
Qed.

(** X7.  The retry wrapper never calls the registry more than
    [max_retries] times, whatever the calls do: an invocation only adds
    to the trace, at most [max_retries] executions, and leaves the lists
    of the handlers as they are. *)
Theorem retry_calls_registry_at_most_max_retries
    (name : string) (max_retries : Z) (w : World) :
  exists tr : list Event,
    events (snd (retry_failed_action name max_retries w)) = (events w ++ tr)%list
    /\ heap (snd (retry_failed_action name max_retries w)) = heap w
    /\ (executions tr <= Z.to_nat max_retries)%nat.
Proof.
  rewrite retry_failed_action_unfold.
  destruct (retry_loop_bounded name
              (Failure ("Action '" ++ name ++ "' failed after "
                          ++ str_int max_retries ++ " retries"))
              (range max_retries) w)
    as [r [w' [tr [Hrun [Hev [Hheap Hn]]]]]].
  exists tr. rewrite Hrun. cbn [snd]. repeat split; try assumption.
  unfold range in Hn. rewrite length_map, length_seq in Hn. exact Hn.
Qed.

(** X8.  With a negative [max_retries] the loop has no round either: the
    registry is not called, the world is unchanged, and the message
    reports the negative number. *)
Theorem retry_negative_never_invokes (name : string) (max_retries : Z) (w : World) :
  (max_retries <= 0)%Z ->
  retry_failed_action name max_retries w =
    (Ret (Failure ("Action '" ++ name ++ "' failed after "
                     ++ str_int max_retries ++ " retries")), w).
Proof.
  intros Hneg. rewrite retry_failed_action_unfold. unfold range.
  replace (Z.to_nat max_retries) with 0%nat by lia. reflexivity.
Qed.

End RetryBounds.

Section EdgeCases.

Context {X : External}.

(** X9.  On a malformed cookies text, where [json.loads] raises
    [JSONDecodeError], [set_cookies] returns a [Failure] and the driver
    is left as the page lookup left it: [add_cookies] is not called. *)
Theorem set_cookies_rejects_malformed_text
    (cks : string) (w : World) (p : Page) (s1 : St) :
  get_current_page (ext w) = (Ret p, s1) ->
  json_loads cks = Raise JSONDecodeError ->
  exists message : string,
    set_cookies cks w = (Ret (Failure message), with_ext w s1).
Proof.
  intros Hpage Hjson. unfold set_cookies, bind at 1.
  rewrite (call_returns _ _ Hpage). unfold try_except, bind, lift.
  rewrite Hjson. eexists. reflexivity.
Qed.

(** X10.  When the form data decodes to [None], a [bool], an [int], a
    [str] or a [list] (any value of [PyValue] but a [dict]),
    [fill_and_submit_form] fills nothing and clicks nothing: it returns
    the [Failure] of the missing [items] attribute, which names the type
    of the value. *)
Theorem fill_and_submit_form_needs_an_object
    (form_selector data : string) (w : World) (p : Page) (s1 : St) (v : PyValue) :
  get_current_page (ext w) = (Ret p, s1) ->
  json_loads data = Ret v ->
  (forall pairs, v <> PDict pairs) ->
  fill_and_submit_form form_selector data w =
    (Ret (Failure ("'" ++ type_name v ++ "' object has no attribute 'items'")),
     with_ext w s1).
Proof.
  intros Hpage Hjson Hnot. unfold fill_and_submit_form, bind at 1.
  rewrite (call_returns _ _ Hpage). unfold try_except, bind, lift.
  rewrite Hjson. cbn [ret].
  destruct v; try reflexivity. exfalso. exact (Hnot pairs eq_refl).
Qed.

Lemma for_fills_in_order (p : Page) (form_selector : string)
    (fields : list (string * PyValue)) :
  forall (w : World) (s' : St),
    fills_in_order p form_selector fields (ext w) s' ->
    for_ fields (fun fv =>
        call (fill p (form_selector ++ " [name=" ++ dquote ++ fst fv ++ dquote ++ "]")
                   (snd fv))) w =
    (Ret tt, with_ext w s').
Proof.
  induction fields as [|[field value] rest IH]; intros w s' H.
  - inversion H; subst. destruct w; reflexivity.
  - inversion H as [|f v r s0 s1 s2 Hfill Hrest]; subst.
    cbn [for_]. unfold bind. cbn [fst snd].
    rewrite call_returns with (a := tt) (s := s1) by exact Hfill.
    rewrite IH with (s' := s') by exact Hrest. reflexivity.
Qed.

Lemma for_fills_until_failure (p : Page) (form_selector : string)
    (done : list (string * PyValue)) (field : string) (value : PyValue)
    (rest : list (string * PyValue)) (e : Exn) :
  forall (w : World) (s2 s3 : St),
    fills_in_order p form_selector done (ext w) s2 ->
    fill p (field_selector form_selector field) value s2 = (Raise e, s3) ->
    for_ (done ++ (field, value) :: rest)%list (fun fv =>
        call (fill p (form_selector ++ " [name=" ++ dquote ++ fst fv ++ dquote ++ "]")
                   (snd fv))) w =
    (Raise e, with_ext w s3).
Proof.
  induction done as [|[f v] done IH]; intros w s2 s3 H Hfail.
  - inversion H; subst. cbn [app for_]. unfold bind. cbn [fst snd].
    rewrite call_raises with (e := e) (s := s3) by exact Hfail. reflexivity.
  - inversion H as [|f0 v0 r s0 s1 s4 Hfill Hrest]; subst.
    cbn [app for_]. unfold bind. cbn [fst snd].
    rewrite call_returns with (a := tt) (s := s1) by exact Hfill.
    rewrite IH with (s2 := s2) (s3 := s3) by assumption. reflexivity.
Qed.

(** X11.  On a JSON object, [fill_and_submit_form] fills the fields in
    the order of the object, each at the selector
    [<form> [name="<field>"]], then clicks [<form> [type="submit"]];
    when all these calls return, the result is the success message. *)
Theorem fill_and_submit_form_fills_then_submits
    (form_selector data : string) (w : World) (p : Page) (s1 s2 s3 : St)
    (fields : list (string * PyValue)) :
  get_current_page (ext w) = (Ret p, s1) ->
  json_loads data = Ret (PDict fields) ->
  fills_in_order p form_selector fields s1 s2 ->
  click p (submit_selector form_selector) s2 = (Ret tt, s3) ->
  fill_and_submit_form form_selector data w =
    (Ret (Success "Form filled and submitted"), with_ext w s3).
Proof.
  intros Hpage Hjson Hfills Hclick. unfold fill_and_submit_form, bind at 1.
  rewrite (call_returns _ _ Hpage). unfold try_except, bind at 1, lift.
  rewrite Hjson. cbn [ret items]. unfold bind at 1. cbn [ret]. unfold bind at 1.
  rewrite for_fills_in_order with (s' := s2) by exact Hfills.
  unfold bind at 1.
  rewrite call_returns with (a := tt) (s := s3) by exact Hclick.
  reflexivity.
Qed.

(** X12.  When a [page.fill] raises, [fill_and_submit_form] stops there:
    the fields before it stay filled, the later fields are not touched,
    the form is not submitted, and the result is the [Failure] with the
    text of that exception. *)
Theorem fill_and_submit_form_stops_at_first_failure
    (form_selector data : string) (w : World) (p : Page) (s1 s2 s3 : St)
    (done rest : list (string * PyValue)) (field : string) (value : PyValue) (e : Exn) :
  get_current_page (ext w) = (Ret p, s1) ->
  json_loads data = Ret (PDict (done ++ (field, value) :: rest)%list) ->
  fills_in_order p form_selector done s1 s2 ->
  fill p (field_selector form_selector field) value s2 = (Raise e, s3) ->
  fill_and_submit_form form_selector data w =
    (Ret (Failure (exn_str e)), with_ext w s3).
Proof.
  intros Hpage Hjson Hfills Hfail. unfold fill_and_submit_form, bind at 1.
  rewrite (call_returns _ _ Hpage). unfold try_except, bind at 1, lift.
  rewrite Hjson. cbn [ret items]. unfold bind at 1. cbn [ret]. unfold bind at 1.
  rewrite for_fills_until_failure with (e := e) (s2 := s2) (s3 := s3) by assumption.
  reflexivity.
Qed.

(** X13.  For an action other than ["accept"] and ["dismiss"],
    [handle_popup] registers no listener, touches nothing after the page
    lookup, and still reports the popup as handled. *)
Theorem handle_popup_unknown_action_registers_nothing
    (action : string) (w : World) (p : Page) (s1 : St) :
  get_current_page (ext w) = (Ret p, s1) ->
  action <> "accept" ->
  action <> "dismiss" ->
  handle_popup action w = (Ret (Success ("Popup handled: " ++ action)), with_ext w s1).
Proof.
  intros Hpage Ha Hd.
  apply String.eqb_neq in Ha. apply String.eqb_neq in Hd.
  unfold handle_popup, bind at 1. rewrite (call_returns _ _ Hpage).
  rewrite Ha, Hd. reflexivity.
Qed.

(** X14.  Without a usable download path ([None] or the empty string)
    [download_file] never calls [save_as]: once the download has been
    obtained it returns ["File downloaded"]. *)
Theorem download_file_without_path_does_not_save
    (url : string) (download_path : option string) (w : World) (p : Page)
    (info : DownloadInfo) (d : Download) (s1 s2 s3 s4 s5 : St) :
  download_path = None \/ download_path = Some "" ->
  get_current_page (ext w) = (Ret p, s1) ->
  expect_download_enter p s1 = (Ret info, s2) ->
  goto p url s2 = (Ret tt, s3) ->
  expect_download_exit info None s3 = (Ret tt, s4) ->
  download_value info s4 = (Ret d, s5) ->
  download_file url download_path w = (Ret (Success "File downloaded"), with_ext w s5).
Proof.
  intros Hpath Hpage Henter Hgoto Hexit Hvalue.
  assert (Ht : truthy download_path = false) by (destruct Hpath; subst; reflexivity).
  unfold download_file, bind at 1. rewrite (call_returns _ _ Hpage).
  rewrite Ht.
  unfold try_except, bind, async_with, try_except, bind, call, ret.
  cbn [ext heap events with_ext]. rewrite Henter. cbn [ext heap events].
  rewrite Hgoto. cbn [ext heap events]. rewrite Hexit. cbn [ext heap events].
  rewrite Hvalue. reflexivity.
Qed.

(** X15.  When [query_selector] finds no element, [switch_to_iframe]
    returns the [Failure] ["Iframe not found"] and goes no further. *)
Theorem switch_to_iframe_reports_missing_frame
    (iframe_selector : string) (w : World) (p : Page) (s1 s2 : St) :
  get_current_page (ext w) = (Ret p, s1) ->
  query_selector p iframe_selector s1 = (Ret None, s2) ->
  switch_to_iframe iframe_selector w = (Ret (Failure "Iframe not found"), with_ext w s2).
Proof.
  intros Hpage Hq. unfold switch_to_iframe, bind at 1.
  rewrite (call_returns _ _ Hpage). unfold try_except, bind.
  rewrite call_returns with (a := @None Element) (s := s2) by exact Hq.
  reflexivity.
Qed.

End EdgeCases.

Section HttpAndPayloads.

Context {X : External}.

(** X16.  A ["POST"] whose body cannot be decoded ([data] absent, or a
    malformed text, on which [json.loads] raises [JSONDecodeError])
    returns a [Failure] and starts no HTTP request: the body is decoded
    before the request is made. *)
Theorem call_external_api_post_without_body_sends_nothing
    (url : string) (data : option string) (w : World) :
  data = None \/ (exists s, data = Some s /\ json_loads s = Raise JSONDecodeError) ->
  exists (message : string) (w' : World),
    call_external_api url "POST" data w = (Ret (Failure message), w')
    /\ events w' = events w.
Proof.
  intros Hdata.
  assert (Hbody : exists e, forall w0 : World, json_loads_opt data w0 = (Raise e, w0)).
  { destruct Hdata as [H|[s [H Hj]]]; subst.
    - eexists. intros w0. reflexivity.
    - exists JSONDecodeError. intros w0. unfold json_loads_opt, lift.
      rewrite Hj. reflexivity. }
  destruct Hbody as [e0 Hbody].
  unfold call_external_api. cbn [String.eqb Ascii.eqb Bool.eqb].
  unfold try_except at 1, bind at 1, call at 1.
  destruct (import_aiohttp (ext w)) as [[u|e] s]; cbn [ext heap events];
    [|eexists; eexists; split; reflexivity].
  unfold async_with at 1, bind at 1, call at 1. cbn [ext heap events].
  destruct (client_session_enter s) as [[session|e] s']; cbn [ext heap events];
    [|eexists; eexists; split; reflexivity].
  unfold bind at 1, bind at 1.
  rewrite Hbody. unfold bind at 1, call at 1. cbn [ext heap events].
  destruct (client_session_exit session (Some e0) s') as [[u'|e] s''];
    cbn [ext heap events]; eexists; eexists; split; reflexivity.
Qed.

(** X17.  A ["GET"] on a working HTTP client starts exactly one request,
    to the given address, and returns the body of the response as the
    success content, whatever [data] is. *)
Theorem call_external_api_get_returns_body
    (url : string) (data : option string) (w : World)
    (session : ClientSession) (response : Response) (body : string)
    (s1 s2 s3 s4 s5 s6 : St) :
  import_aiohttp (ext w) = (Ret tt, s1) ->
  client_session_enter s1 = (Ret session, s2) ->
  session_get session url s2 = (Ret response, s3) ->
  response_text response s3 = (Ret body, s4) ->
  response_exit response None s4 = (Ret tt, s5) ->
  client_session_exit session None s5 = (Ret tt, s6) ->
  call_external_api url "GET" data w =
    (Ret (Success body),
     {| ext := s6; heap := heap w; events := (events w ++ [EvGet url])%list |}).
Proof.
  intros Himp Henter Hget Htext Hrexit Hsexit.
  unfold call_external_api. cbn [String.eqb Ascii.eqb Bool.eqb].
  unfold try_except, bind, async_with, try_except, bind, call, emit, ret.
  cbn [ext heap events]. rewrite Himp. cbn [ext heap events].
  rewrite Henter. cbn [ext heap events]. rewrite Hget. cbn [ext heap events].
  rewrite Htext. cbn [ext heap events]. rewrite Hrexit. cbn [ext heap events].
  rewrite Hsexit. reflexivity.
Qed.

(** X18.  A ["POST"] on a working HTTP client decodes [data] with
    [json.loads], starts exactly one request that carries the decoded
    value as its JSON body, and returns the body of the response. *)
Theorem call_external_api_post_sends_decoded_body
    (url text : string) (v : PyValue) (w : World)
    (session : ClientSession) (response : Response) (body : string)
    (s1 s2 s3 s4 s5 s6 : St) :
  json_loads text = Ret v ->
  import_aiohttp (ext w) = (Ret tt, s1) ->
  client_session_enter s1 = (Ret session, s2) ->
  session_post session url v s2 = (Ret response, s3) ->
  response_text response s3 = (Ret body, s4) ->
  response_exit response None s4 = (Ret tt, s5) ->
  client_session_exit session None s5 = (Ret tt, s6) ->
  call_external_api url "POST" (Some text) w =
    (Ret (Success body),
     {| ext := s6; heap := heap w; events := (events w ++ [EvPost url v])%list |}).
Proof.
  intros Hjson Himp Henter Hpost Htext Hrexit Hsexit.
  unfold call_external_api. cbn [String.eqb Ascii.eqb Bool.eqb].
  unfold try_except, bind, async_with, try_except, bind, call, emit, ret,
    json_loads_opt, lift.
  rewrite Hjson. unfold ret.
  cbn [ext heap events]. rewrite Himp. cbn [ext heap events].
  rewrite Henter. cbn [ext heap events]. rewrite Hpost. cbn [ext heap events].
  rewrite Htext. cbn [ext heap events]. rewrite Hrexit. cbn [ext heap events].
  rewrite Hsexit. reflexivity.
Qed.

Lemma join_head (sep x : string) (l : list string) :
  exists tail : string, join sep (x :: l) = x ++ tail.
Proof.
  destruct l as [|y l].
  - exists "". cbn [join]. symmetry. 
    induction x as [|c x IH]; [reflexivity|]. cbn [append]. rewrite IH at 1. reflexivity.
  - eexists. reflexivity.
Qed.

(** The [str()] of a cookie list whose first cookie is a dictionary that
    starts with a key written in single quotes. *)
Lemma py_str_cookie_list_head (k : string) (v : PyValue)
    (more : list (string * PyValue)) (others : list PyValue) :
  repr_quote k = "'"%char ->
  exists tail : string,
    py_str (PList (PDict ((k, v) :: more) :: others)) =
    String "["%char (String "{"%char (String "'"%char tail)).
Proof.
  intros Hq.
  assert (E0 : py_str (PList (PDict ((k, v) :: more) :: others)) =
               "[" ++ join ", " (py_repr (PDict ((k, v) :: more)) :: map py_repr others)
                   ++ "]") by reflexivity.
  assert (E1 : py_repr (PDict ((k, v) :: more)) =
               "{" ++ join ", "
                        ((repr_str k ++ ": " ++ py_repr v)
                           :: map (fun kv => repr_str (fst kv) ++ ": " ++ py_repr (snd kv))
                                  more)
                   ++ "}") by reflexivity.
  destruct (join_head ", " (py_repr (PDict ((k, v) :: more))) (map py_repr others))
    as [t1 H1].
  destruct (join_head ", " (repr_str k ++ ": " ++ py_repr v)
              (map (fun kv => repr_str (fst kv) ++ ": " ++ py_repr (snd kv)) more))
    as [t2 H2].
  rewrite E0, H1, E1, H2. unfold repr_str. rewrite Hq.
  eexists. cbn [append]. reflexivity.
Qed.

Lemma json_loads_rejects_single_quoted_key (tail : string) :
  json_loads (String "["%char (String "{"%char (String "'"%char tail))) =
  Raise JSONDecodeError.
Proof.
  unfold json_loads. cbn [skip_ws]. change (is_ws "[") with false. cbv iota.
  cbn [String.length].
  replace (2 * S (S (S (String.length tail))) + 1)%nat
    with (S (S (S (2 * String.length tail + 4))))%nat by lia.
  reflexivity.
Qed.

(** X19.  Whenever the driver returns a cookie list whose first cookie
    is a dictionary with a first key that [repr] writes in single quotes
    (any key without a quote character, such as [name]),
    [get_cookies] succeeds with a text that [json.loads] rejects. *)
Theorem get_cookies_content_is_not_json
    (w : World) (p : Page) (s1 s2 : St) (k : string) (v : PyValue)
    (more : list (string * PyValue)) (others : list PyValue) :
  get_current_page (ext w) = (Ret p, s1) ->
  cookies p s1 = (Ret (PList (PDict ((k, v) :: more) :: others)), s2) ->
  repr_quote k = "'"%char ->
  get_cookies w =
    (Ret (Success (py_str (PList (PDict ((k, v) :: more) :: others)))), with_ext w s2)
  /\ json_loads (py_str (PList (PDict ((k, v) :: more) :: others))) =
     Raise JSONDecodeError.
Proof.
  intros Hpage Hck Hq. split.
  - unfold get_cookies, bind, try_except.
    rewrite (call_returns _ _ Hpage).
    rewrite call_returns with (a := PList (PDict ((k, v) :: more) :: others)) (s := s2)
      by exact Hck.
    reflexivity.
  - destruct (py_str_cookie_list_head k v more others Hq) as [tail E].
    rewrite E. apply json_loads_rejects_single_quoted_key.
Qed.

End HttpAndPayloads.

(* ================================================================== *)
(** ** [json.loads] after [json.dumps] *)

Section JsonRoundTrip.

Lemma scan_once_eq (f : nat) (s : string) :
  scan_once (S f) s =
  match s with
  | EmptyString => Invalid
  | String c r =>
      if Ascii.eqb c "034"%char then
        match scanstring r with
        | Scanned t rest => Scanned (PStr t) rest
        | Invalid => Invalid
        | Exhausted => Exhausted
        | Unrepresented => Unrepresented
        end
      else if Ascii.eqb c "["%char then
        match skip_ws r with
        | EmptyString => Invalid
        | String d r1 as r0 =>
            if Ascii.eqb d "]"%char then Scanned (PList []) r1
            else scan_items f r0 []
        end
      else if Ascii.eqb c "{"%char then
        match skip_ws r with
        | EmptyString => Invalid
        | String d r1 =>
            if Ascii.eqb d "}"%char then Scanned (PDict []) r1
            else if Ascii.eqb d "034"%char then scan_pairs f r1 []
            else Invalid
        end
      else scan_literal s
  end.
Proof. reflexivity. Qed.

Lemma scan_items_eq (f : nat) (s : string) (acc : list PyValue) :
  scan_items (S f) s acc =
  match scan_once f s with
  | Scanned v r =>
      match skip_ws r with
      | EmptyString => Invalid
      | String d r1 =>
          if Ascii.eqb d "]"%char then Scanned (PList (rev (v :: acc))) r1
          else if Ascii.eqb d ","%char then scan_items f (skip_ws r1) (v :: acc)
          else Invalid
      end
  | Invalid => Invalid
  | Exhausted => Exhausted
  | Unrepresented => Unrepresented
  end.
Proof. reflexivity. Qed.

Lemma scan_pairs_eq (f : nat) (s : string) (acc : list (string * PyValue)) :
  scan_pairs (S f) s acc =
  match scanstring s with
  | Invalid => Invalid
  | Exhausted => Exhausted
  | Unrepresented => Unrepresented
  | Scanned k r =>
      match skip_ws r with
      | EmptyString => Invalid
      | String d r1 =>
          if negb (Ascii.eqb d ":"%char) then Invalid
          else
            match scan_once f (skip_ws r1) with
            | Scanned v r2 =>
                match skip_ws r2 with
                | EmptyString => Invalid
                | String g r3 =>
                    if Ascii.eqb g "}"%char
                    then Scanned (PDict (dict_of_pairs (rev ((k, v) :: acc)))) r3
                    else if Ascii.eqb g ","%char then
                      match skip_ws r3 with
                      | EmptyString => Invalid
                      | String h r4 =>
                          if Ascii.eqb h "034"%char then scan_pairs f r4 ((k, v) :: acc)
                          else Invalid
                      end
                    else Invalid
                end
            | Invalid => Invalid
            | Exhausted => Exhausted
            | Unrepresented => Unrepresented
            end
      end
  end.
Proof. reflexivity. Qed.

Ltac split_scans :=
  repeat match goal with
  | |- context [match scanstring ?x with _ => _ end] =>
      destruct (scanstring x) as [? ?| | |]
  | |- context [match skip_ws ?x with _ => _ end] =>
      destruct (skip_ws x) as [|? ?]
  | |- context [if ?b then _ else _] => destruct b
  end.

(** A scan that did not run out of fuel gives the same result with more
    fuel. *)
Lemma scan_stable_step (f : nat) :
  (forall s, scan_once f s <> Exhausted -> scan_once (S f) s = scan_once f s)
  /\ (forall s acc, scan_items f s acc <> Exhausted ->
                    scan_items (S f) s acc = scan_items f s acc)
  /\ (forall s acc, scan_pairs f s acc <> Exhausted ->
                    scan_pairs (S f) s acc = scan_pairs f s acc).
Proof.
  induction f as [|f [IHo [IHi IHp]]].
  - repeat split; intros; exfalso; auto.
  - split; [|split].
    + intros s. rewrite (scan_once_eq (S f) s), (scan_once_eq f s).
      destruct s as [|c r]; [reflexivity|].
      split_scans; intros H; try reflexivity;
        first [apply IHi | apply IHp]; exact H.
    + intros s acc. rewrite (scan_items_eq (S f) s acc), (scan_items_eq f s acc).
      destruct (scan_once f s) as [v r| | |] eqn:Eo.
      * rewrite IHo, Eo by (rewrite Eo; discriminate).
        split_scans; intros H; try reflexivity. apply IHi. exact H.
      * rewrite IHo, Eo by (rewrite Eo; discriminate). reflexivity.
      * intros H. exfalso. apply H. reflexivity.
      * rewrite IHo, Eo by (rewrite Eo; discriminate). reflexivity.
    + intros s acc. rewrite (scan_pairs_eq (S f) s acc), (scan_pairs_eq f s acc).
      destruct (scanstring s) as [k r| | |]; try reflexivity.
      destruct (skip_ws r) as [|d r1]; [reflexivity|].
      destruct (negb (Ascii.eqb d ":")); [reflexivity|].
      destruct (scan_once f (skip_ws r1)) as [v r2| | |] eqn:Eo.
      * rewrite IHo, Eo by (rewrite Eo; discriminate).
        split_scans; intros H; try reflexivity. apply IHp. exact H.
      * rewrite IHo, Eo by (rewrite Eo; discriminate). reflexivity.
      * intros H. exfalso. apply H. reflexivity.
      * rewrite IHo, Eo by (rewrite Eo; discriminate). reflexivity.
Qed.

Lemma scan_once_stable (f f' : nat) (s : string) :
  scan_once f s <> Exhausted -> (f <= f')%nat -> scan_once f' s = scan_once f s.
Proof.
  intros H Hle. induction Hle as [|f' Hle IH]; [reflexivity|].
  rewrite (proj1 (scan_stable_step f')); [exact IH|]. rewrite IH. exact H.
Qed.

(** A result obtained with some fuel is the one [json_loads] finds. *)
Lemma json_loads_of_scan (f : nat) (s : string) (v : PyValue) :
  skip_ws s = s ->
  scan_once f s = Scanned v "" ->
  json_loads s = Ret v.
Proof.
  intros Hs H. unfold json_loads. rewrite Hs.
  pose proof (scan_once_fuel s) as Hfuel.
  assert (E : scan_once (2 * String.length s + 1) s = Scanned v "").
  { destruct (Nat.le_ge_cases f (2 * String.length s + 1)) as [Hle|Hge].
    - rewrite scan_once_stable with (f := f); [exact H| |exact Hle].
      rewrite H. discriminate.
    - rewrite <- scan_once_stable with (f' := f) (f := (2 * String.length s + 1)%nat);
        [exact H|exact Hfuel|exact Hge]. }
  rewrite E. reflexivity.
Qed.

(** *** Numbers *)

Lemma scan_digits_stop (rest : string) (acc : N) :
  delimited rest = true -> scan_digits rest acc = (acc, rest).
Proof.
  destruct rest as [|c r]; [reflexivity|]. intros H. cbn [scan_digits].
  destruct c as [[] [] [] [] [] [] [] []]; try discriminate H; reflexivity.
Qed.

Lemma float_tail_delimited (rest : string) :
  delimited rest = true -> float_tail rest = false.
Proof.
  destruct rest as [|c [|d r]]; try reflexivity; intros H;
    destruct c as [[] [] [] [] [] [] [] []]; try discriminate H; reflexivity.
Qed.

Lemma scan_digits_uint (u : Decimal.uint) :
  forall (a : positive) (rest : string),
    delimited rest = true ->
    scan_digits (NilEmpty.string_of_uint u ++ rest) (N.pos a) =
    (N.pos (Pos.of_uint_acc u a), rest).
Proof.
  induction u as [|u IH|u IH|u IH|u IH|u IH|u IH|u IH|u IH|u IH|u IH];
    intros a rest Hrest;
    cbn [NilEmpty.string_of_uint append Pos.of_uint_acc];
    [apply scan_digits_stop; exact Hrest|..];
    cbn [scan_digits];
    match goal with
    | |- (if is_digit ?c then _ else _) = _ => change (is_digit c) with true
    end; cbv iota;
    match goal with
    | |- scan_digits _ ?n = (N.pos (Pos.of_uint_acc _ ?b), _) =>
        replace n with (N.pos b) by (unfold code; simpl N_of_ascii; lia)
    end;
    apply IH; exact Hrest.
Qed.

Lemma to_uint_head_nonzero (p : positive) (u : Decimal.uint) :
  Pos.to_uint p <> Decimal.D0 u.
Proof.
  intros H.
  pose proof (DecimalPos.Unsigned.to_of (Pos.to_uint p)) as E.
  rewrite DecimalPos.Unsigned.of_to in E. cbn [N.to_uint] in E.
  unfold Decimal.unorm in E.
  destruct (Decimal.nzhead (Pos.to_uint p)) eqn:Hz;
    try (rewrite E in H; discriminate H).
  - apply (DecimalPos.Unsigned.to_uint_nonzero p). exact E.
  - exact (DecimalFacts.nzhead_nonzero _ _ Hz).
Qed.

(** The scanner reads the digits of a positive number back. *)
Lemma scan_number_positive (p : positive) (rest : string) :
  delimited rest = true ->
  exists (c : ascii) (t : string),
    NilZero.string_of_uint (Pos.to_uint p) = String c t
    /\ is_digit c = true
    /\ scan_number (String c (t ++ rest)) = Scanned (PInt (Z.pos p)) rest
    /\ scan_number (String "-"%char (String c (t ++ rest))) =
       Scanned (PInt (Z.neg p)) rest.
Proof.
  intros Hrest.
  pose proof (DecimalPos.Unsigned.of_to p) as Hval.
  pose proof (float_tail_delimited rest Hrest) as Hft.
  destruct (Pos.to_uint p) as [|u|u|u|u|u|u|u|u|u|u] eqn:E;
    [exfalso; exact (DecimalPos.Unsigned.to_uint_nonnil p E)
    |exfalso; exact (to_uint_head_nonzero p E)|..];
    eexists _, _; (split; [reflexivity|]); (split; [reflexivity|]);
    cbn [Pos.of_uint] in Hval; inversion Hval as [Hp];
    unfold scan_number; cbn [Ascii.eqb Bool.eqb]; cbv iota;
    match goal with
    | |- context [is_digit ?c] => change (is_digit c) with true
    end; cbn [negb]; cbv iota;
    cbn [scan_digits];
    match goal with
    | |- context [is_digit ?c] => change (is_digit c) with true
    end; cbv iota;
    match goal with
    | |- context [scan_digits _ ?n] =>
        let m := eval vm_compute in n in change n with m
    end;
    rewrite scan_digits_uint by exact Hrest; rewrite Hft, Hp; split; reflexivity.
Qed.

Lemma append_empty_r (a : string) : a ++ "" = a.
Proof. induction a as [|x a IH]; simpl; [reflexivity|]. rewrite IH. reflexivity. Qed.

Lemma reads_back_int (z : Z) : reads_back (PInt z).
Proof.
  exists 1%nat. intros f rest Hf Hrest.
  destruct f as [|f]; [lia|]. cbn [json_dumps]. unfold str_int.
  destruct z as [|p|p]; cbn [Z.to_int NilZero.string_of_int].
  - cbn [NilZero.string_of_uint NilEmpty.string_of_uint append]. rewrite scan_once_eq.
    cbn [Ascii.eqb Bool.eqb]. cbv iota. unfold scan_literal.
    cbn [strip_prefix Ascii.eqb Bool.eqb]. cbv iota.
    unfold scan_number. cbn [Ascii.eqb Bool.eqb]. cbv iota.
    change (is_digit "0") with true. cbn [negb]. cbv iota.
    rewrite (float_tail_delimited rest Hrest). reflexivity.
  - destruct (scan_number_positive p rest Hrest) as [c [t [E [Hd [Hpos _]]]]].
    rewrite E. cbn [append]. rewrite scan_once_eq.
    destruct c as [[] [] [] [] [] [] [] []]; try discriminate Hd;
      cbn [Ascii.eqb Bool.eqb]; cbv iota; unfold scan_literal;
      cbn [strip_prefix Ascii.eqb Bool.eqb]; cbv iota; rewrite Hpos; reflexivity.
  - destruct (scan_number_positive p rest Hrest) as [c [t [E [Hd [_ Hneg]]]]].
    rewrite E. cbn [append]. rewrite scan_once_eq.
    cbn [Ascii.eqb Bool.eqb]. cbv iota. unfold scan_literal.
    cbn [strip_prefix Ascii.eqb Bool.eqb]. cbv iota. rewrite Hneg. reflexivity.
Qed.

(** The first character of a text written by [json.dumps] is neither
    white space nor a closing bracket. *)
Lemma json_dumps_head (v : PyValue) :
  exists (c : ascii) (t : string),
    json_dumps v = String c t
    /\ is_ws c = false
    /\ Ascii.eqb c "]"%char = false
    /\ Ascii.eqb c "}"%char = false.
Proof.
  destruct v as [|[]|z|s|l|pairs]; try (eexists _, _; repeat split; reflexivity).
  cbn [json_dumps]. unfold str_int.
  destruct z as [|p|p]; cbn [Z.to_int NilZero.string_of_int].
  - eexists _, _. repeat split; reflexivity.
  - destruct (scan_number_positive p "" eq_refl) as [c [t [E [Hd _]]]].
    rewrite E. exists c, t. split; [reflexivity|].
    destruct c as [[] [] [] [] [] [] [] []]; try discriminate Hd; repeat split; reflexivity.
  - eexists _, _. repeat split; reflexivity.
Qed.

Lemma skip_ws_json_dumps (v : PyValue) (rest : string) :
  skip_ws (json_dumps v ++ rest) = json_dumps v ++ rest.
Proof.
  destruct (json_dumps_head v) as [c [t [E [Hws _]]]].
  rewrite E. cbn [append skip_ws]. rewrite Hws. reflexivity.
Qed.

Lemma reads_back_simple (v : PyValue) :
  match v with PList _ | PDict _ => False | _ => True end -> reads_back v.
Proof.
  destruct v as [|b|z|s|l|pairs]; intros Hv; try contradiction.
  - exists 1%nat. intros f rest Hf _. destruct f as [|f]; [lia|]. reflexivity.
  - exists 1%nat. intros f rest Hf _. destruct f as [|f]; [lia|].
    destruct b; reflexivity.
  - apply reads_back_int.
  - exists 1%nat. intros f rest Hf _. destruct f as [|f]; [lia|].
    apply scan_once_quote.
Qed.

(** *** Arrays *)

Lemma join_json_dumps_head (x : PyValue) (l : list PyValue) :
  exists (c : ascii) (t : string),
    join ", " (map json_dumps (x :: l)) = String c t
    /\ is_ws c = false
    /\ Ascii.eqb c "]"%char = false.
Proof.
  destruct (json_dumps_head x) as [c [t [E [Hws [Hb _]]]]].
  destruct l as [|y l].
  - exists c, t. cbn [map join]. auto.
  - exists c, (t ++ ", " ++ join ", " (map json_dumps (y :: l))).
    cbn [map]. rewrite join_cons2, E. auto.
Qed.

Lemma skip_ws_join_json_dumps (x : PyValue) (l : list PyValue) (tail : string) :
  skip_ws (join ", " (map json_dumps (x :: l)) ++ tail) =
  join ", " (map json_dumps (x :: l)) ++ tail.
Proof.
  destruct (join_json_dumps_head x l) as [c [t [E [Hws _]]]].
  rewrite E. cbn [append skip_ws]. rewrite Hws. reflexivity.
Qed.

Lemma reads_back_items (l : list PyValue) :
  Forall reads_back l ->
  forall x : PyValue,
    reads_back x ->
    exists f0 : nat,
      forall (f : nat) (acc : list PyValue) (rest : string),
        (f0 <= f)%nat ->
        scan_items f (join ", " (map json_dumps (x :: l)) ++ "]" ++ rest) acc =
        Scanned (PList (rev acc ++ x :: l)%list) rest.
Proof.
  induction 1 as [|y l Hy Hl IH]; intros x [f0 Hx].
  - exists (S f0). intros f acc rest Hf. destruct f as [|f]; [lia|].
    change (join ", " (map json_dumps [x])) with (json_dumps x).
    rewrite scan_items_eq, Hx by (reflexivity || lia). reflexivity.
  - destruct (IH y Hy) as [f1 Hrec].
    exists (S (Nat.max f0 f1)). intros f acc rest Hf. destruct f as [|f]; [lia|].
    change (map json_dumps (x :: y :: l))
      with (json_dumps x :: map json_dumps (y :: l)).
    change (join ", " (json_dumps x :: map json_dumps (y :: l)))
      with (json_dumps x ++ ", " ++ join ", " (map json_dumps (y :: l))).
    rewrite !append_assoc, scan_items_eq, Hx by (reflexivity || lia).
    change (skip_ws (", " ++ join ", " (map json_dumps (y :: l)) ++ "]" ++ rest))
      with (String ","%char
              (String " "%char (join ", " (map json_dumps (y :: l)) ++ "]" ++ rest))).
    cbn [Ascii.eqb Bool.eqb]. cbv iota.
    change (skip_ws (String " "%char (join ", " (map json_dumps (y :: l)) ++ "]" ++ rest)))
      with (skip_ws (join ", " (map json_dumps (y :: l)) ++ "]" ++ rest)).
    rewrite skip_ws_join_json_dumps, Hrec by lia.
    cbn [rev]. rewrite <- app_assoc. reflexivity.
Qed.

Lemma reads_back_list (l : list PyValue) :
  Forall reads_back l -> reads_back (PList l).
Proof.
  intros Hl. destruct Hl as [|x l Hx Hl].
  - exists 1%nat. intros f rest Hf _. destruct f as [|f]; [lia|]. reflexivity.
  - destruct (reads_back_items Hl Hx) as [f0 Hitems].
    exists (S f0). intros f rest Hf _. destruct f as [|f]; [lia|].
    change (json_dumps (PList (x :: l)))
      with ("[" ++ join ", " (map json_dumps (x :: l)) ++ "]").
    rewrite !append_assoc. cbn [append]. rewrite scan_once_eq.
    cbn [Ascii.eqb Bool.eqb]. cbv iota.
    rewrite skip_ws_join_json_dumps.
    destruct (join_json_dumps_head x l) as [c [t [E [_ Hb]]]].
    rewrite E. cbn [append]. rewrite Hb.
    change (String c (t ++ String "]"%char rest)) with (String c t ++ "]" ++ rest).
    rewrite <- E. rewrite Hitems by lia. reflexivity.
Qed.

(** *** Objects *)

Lemma json_dumps_dict (pairs : list (string * PyValue)) :
  json_dumps (PDict pairs) = "{" ++ join ", " (map member_text pairs) ++ "}".
Proof. reflexivity. Qed.

Lemma join_member_text_head (x : string * PyValue) (l : list (string * PyValue))
    (tail : string) :
  exists body : string,
    join ", " (map member_text (x :: l)) ++ tail = String "034"%char body.
Proof.
  destruct l as [|y l].
  - cbn [map join]. unfold member_text. rewrite append_assoc, json_quote_app.
    eexists. reflexivity.
  - cbn [map]. rewrite join_cons2. unfold member_text at 1.
    rewrite !append_assoc, json_quote_app. eexists. reflexivity.
Qed.

Ltac step_ws :=
  cbn [skip_ws append];
  repeat match goal with
  | |- context [is_ws ?c] =>
      let b := eval vm_compute in (is_ws c) in
      lazymatch b with
      | true => change (is_ws c) with true
      | false => change (is_ws c) with false
      end; cbv iota; cbn [skip_ws append]
  end.

Lemma reads_back_members (l : list (string * PyValue)) :
  Forall (fun kv => reads_back (snd kv)) l ->
  forall x : string * PyValue,
    reads_back (snd x) ->
    exists f0 : nat,
      forall (f : nat) (acc : list (string * PyValue)) (rest body : string),
        (f0 <= f)%nat ->
        String "034"%char body = join ", " (map member_text (x :: l)) ++ "}" ++ rest ->
        scan_pairs f body acc =
        Scanned (PDict (dict_of_pairs (rev acc ++ x :: l)%list)) rest.
Proof.
  induction 1 as [|y l Hy Hl IH]; intros [k v] [f0 Hv]; cbn [snd] in Hv.
  - exists (S f0). intros f acc rest body Hf Hbody. destruct f as [|f]; [lia|].
    cbn [map join] in Hbody. unfold member_text in Hbody. cbn [fst snd] in Hbody.
    rewrite !append_assoc, json_quote_app in Hbody.
    apply (f_equal string_tail) in Hbody. cbv beta iota delta [string_tail] in Hbody.
    rewrite scan_pairs_eq, Hbody, scanstring_escape.
    step_ws. cbn [Ascii.eqb Bool.eqb negb]. cbv iota. step_ws.
    rewrite skip_ws_json_dumps, Hv by (reflexivity || lia).
    step_ws. reflexivity.
  - destruct (IH y Hy) as [f1 Hrec].
    exists (S (Nat.max f0 f1)). intros f acc rest body Hf Hbody.
    destruct f as [|f]; [lia|].
    cbn [map] in Hbody. rewrite join_cons2 in Hbody.
    unfold member_text at 1 in Hbody. cbn [fst snd] in Hbody.
    rewrite !append_assoc, json_quote_app in Hbody.
    apply (f_equal string_tail) in Hbody. cbv beta iota delta [string_tail] in Hbody.
    rewrite scan_pairs_eq, Hbody, scanstring_escape.
    step_ws. cbn [Ascii.eqb Bool.eqb negb]. cbv iota. step_ws.
    rewrite skip_ws_json_dumps, Hv by (reflexivity || lia).
    step_ws. cbn [Ascii.eqb Bool.eqb]. cbv iota. step_ws.
    destruct (join_member_text_head y l (String "}"%char rest)) as [body' Eb'].
    cbn [map] in Eb'. rewrite Eb'. step_ws. cbn [Ascii.eqb Bool.eqb]. cbv iota.
    rewrite (Hrec f ((k, v) :: acc) rest body') by (lia || (symmetry; exact Eb')).
    cbn [rev]. rewrite <- app_assoc. reflexivity.
Qed.

Lemma dict_set_fresh (k : string) (v : PyValue) (d : list (string * PyValue)) :
  existsb (String.eqb k) (map fst d) = false ->
  dict_set k v d = (d ++ [(k, v)])%list.
Proof.
  induction d as [|[k' v'] d IH]; [reflexivity|].
  cbn [map fst existsb dict_set app]. intros H.
  apply orb_false_iff in H. destruct H as [Hk Hd].
  rewrite Hk, (IH Hd). reflexivity.
Qed.

Lemma fold_dict_set_distinct (pairs : list (string * PyValue)) :
  forall d : list (string * PyValue),
    distinct (map fst d ++ map fst pairs) = true ->
    fold_left (fun d kv => dict_set (fst kv) (snd kv) d) pairs d = (d ++ pairs)%list.
Proof.
  induction pairs as [|[k v] pairs IH]; intros d Hd.
  - rewrite app_nil_r. reflexivity.
  - cbn [fold_left fst snd].
    assert (Hfresh : existsb (String.eqb k) (map fst d) = false).
    { clear IH. induction d as [|[k' v'] d IHd]; [reflexivity|].
      cbn [map fst app distinct existsb] in *.
      apply andb_true_iff in Hd. destruct Hd as [Hk' Hd].
      rewrite (IHd Hd), orb_false_r.
      apply negb_true_iff in Hk'. rewrite existsb_app in Hk'.
      apply orb_false_iff in Hk'. destruct Hk' as [_ Hk']. cbn [map fst existsb] in Hk'.
      apply orb_false_iff in Hk'. destruct Hk' as [Hk' _].
      rewrite String.eqb_sym. exact Hk'. }
    rewrite (dict_set_fresh k v d Hfresh), IH.
    + rewrite <- app_assoc. reflexivity.
    + rewrite map_app, <- app_assoc. exact Hd.
Qed.

Lemma dict_of_pairs_distinct (pairs : list (string * PyValue)) :
  distinct (map fst pairs) = true -> dict_of_pairs pairs = pairs.
Proof. intros H. unfold dict_of_pairs. apply (fold_dict_set_distinct pairs [] H). Qed.

Lemma reads_back_dict (pairs : list (string * PyValue)) :
  distinct (map fst pairs) = true ->
  Forall (fun kv => reads_back (snd kv)) pairs ->
  reads_back (PDict pairs).
Proof.
  intros Hkeys Hl. destruct Hl as [|x l Hx Hl].
  - exists 1%nat. intros f rest Hf _. destruct f as [|f]; [lia|]. reflexivity.
  - destruct (reads_back_members Hl x Hx) as [f0 Hmembers].
    exists (S f0). intros f rest Hf _. destruct f as [|f]; [lia|].
    rewrite json_dumps_dict, !append_assoc. cbn [append]. rewrite scan_once_eq.
    cbn [Ascii.eqb Bool.eqb]. cbv iota.
    destruct (join_member_text_head x l (String "}"%char rest)) as [body Eb].
    rewrite Eb. cbn [skip_ws]. change (is_ws "034") with false. cbv iota.
    cbn [Ascii.eqb Bool.eqb]. cbv iota.
    rewrite (Hmembers f [] rest body) by (lia || (symmetry; exact Eb)).
    cbn [rev app]. rewrite (dict_of_pairs_distinct _ Hkeys). reflexivity.
Qed.

(** *** All values *)

Lemma PyValue_nested_ind (P : PyValue -> Prop) :
  P PNone ->
  (forall b, P (PBool b)) ->
  (forall z, P (PInt z)) ->
  (forall s, P (PStr s)) ->
  (forall items, Forall P items -> P (PList items)) ->
  (forall pairs, Forall (fun kv => P (snd kv)) pairs -> P (PDict pairs)) ->
  forall v, P v.
Proof.
  intros HN HB HZ HS HL HD.
  exact (fix IH (v : PyValue) : P v :=
           match v with
           | PNone => HN
           | PBool b => HB b
           | PInt z => HZ z
           | PStr s => HS s
           | PList items =>
               HL items
                  ((fix go (l : list PyValue) : Forall P l :=
                      match l with
                      | [] => Forall_nil P
                      | x :: r => Forall_cons x (IH x) (go r)
                      end) items)
           | PDict pairs =>
               HD pairs
                  ((fix go (l : list (string * PyValue))
                      : Forall (fun kv => P (snd kv)) l :=
                      match l with
                      | [] => Forall_nil _
                      | kv :: r =>
                          Forall_cons (P := fun kv => P (snd kv)) kv (IH (snd kv)) (go r)
                      end) pairs)
           end).
Qed.

(** The scanner reads back every value without repeated keys. *)
Lemma reads_back_all (v : PyValue) : unique_keys v = true -> reads_back v.
Proof.
  induction v as [|b|z|s|items IH|pairs IH] using PyValue_nested_ind; intros Hu;
    try (apply reads_back_simple; exact I).
  - apply reads_back_list. cbn [unique_keys] in Hu.
    induction IH as [|x l Hx _ IHl]; constructor.
    + apply Hx. cbn [forallb] in Hu. apply andb_true_iff in Hu. apply Hu.
    + apply IHl. cbn [forallb] in Hu. apply andb_true_iff in Hu. apply Hu.
  - cbn [unique_keys] in Hu. apply andb_true_iff in Hu. destruct Hu as [Hk Hv].
    apply reads_back_dict; [exact Hk|].
    induction IH as [|x l Hx _ IHl]; constructor.
    + apply Hx. cbn [forallb] in Hv. apply andb_true_iff in Hv. apply Hv.
    + apply IHl.
      * cbn [map distinct] in Hk. apply andb_true_iff in Hk. apply Hk.
      * cbn [forallb] in Hv. apply andb_true_iff in Hv. apply Hv.
Qed.

(** The decoder of this file reads the text that [json_dumps] writes for
    [v] back as [v], when no dictionary of [v] repeats a key.  (Neither
    function has CPython's limits on the depth of nesting and on the
    number of digits of an integer; the statements on the handlers below
    use the lemma on lists of strings, rows of strings and cookies.) *)
Lemma json_loads_json_dumps (v : PyValue) :
  unique_keys v = true -> json_loads (json_dumps v) = Ret v.
Proof.
  intros Hu. destruct (reads_back_all v Hu) as [f0 H].
  apply json_loads_of_scan with (f := f0).
  - rewrite <- (append_empty_r (json_dumps v)). apply skip_ws_json_dumps.
  - rewrite <- (append_empty_r (json_dumps v)). apply H; [lia|reflexivity].
Qed.

End JsonRoundTrip.

Section PayloadRoundTrips.

Context {X : External}.

Lemma unique_keys_strings (l : list string) : unique_keys (PList (map PStr l)) = true.
Proof.
  cbn [unique_keys]. induction l as [|x l IH]; [reflexivity|exact IH].
Qed.

Lemma unique_keys_table (rows : list (list string)) : unique_keys (table_value rows) = true.
Proof.
  unfold table_value. cbn [unique_keys].
  induction rows as [|row rows IH]; [reflexivity|].
  cbn [map forallb]. rewrite IH, andb_true_r. apply (unique_keys_strings row).
Qed.

Lemma unique_keys_cookie_list (v : PyValue) : cookie_list v = true -> unique_keys v = true.
Proof.
  destruct v as [| | | |cks|]; try discriminate. cbn [cookie_list unique_keys].
  induction cks as [|c cks IH]; [reflexivity|].
  cbn [forallb]. intros H. apply andb_true_iff in H. destruct H as [Hc Hrest].
  rewrite (IH Hrest), andb_true_r.
  destruct c as [| | | | |pairs]; try discriminate. cbn [cookie unique_keys] in *.
  apply andb_true_iff in Hc. destruct Hc as [Hd Hf]. rewrite Hd. cbn [andb].
  clear Hd. induction pairs as [|[k f] pairs IHp]; [reflexivity|].
  cbn [forallb snd] in *. apply andb_true_iff in Hf. destruct Hf as [Hk Hf].
  rewrite (IHp Hf), andb_true_r. destruct f; try discriminate; reflexivity.
Qed.

(** X20.  When the script of an extraction handler evaluates to a list
    of strings (the addresses of the links or of the images) or to a
    list of rows of strings (the cell texts of a table), the handler
    succeeds with the [json.dumps] text of that value, and [json.loads]
    reads the text back as the same value.  This holds for
    [extract_all_links], [extract_all_images] and
    [extract_table_data]. *)
Theorem extraction_content_reads_back
    (a : Action) (script : string) (w : World) (p : Page) (s1 s2 : St)
    (v : PyValue) (urls : list string) (rows : list (list string)) :
  extraction_script a = Some script ->
  v = PList (map PStr urls) \/ v = table_value rows ->
  get_current_page (ext w) = (Ret p, s1) ->
  evaluate p script s1 = (Ret v, s2) ->
  invoke a w = (Ret (Success (json_dumps v)), with_ext w s2)
  /\ json_loads (json_dumps v) = Ret v.
Proof.
  intros Hscript Hshape Hpage Heval. split.
  - destruct a; try discriminate Hscript; cbn [extraction_script] in Hscript;
      inversion Hscript; subst script; cbn [invoke];
      match goal with |- ?m _ = _ => let h := head_symbol m in unfold h end;
      unfold bind, try_except;
      rewrite (call_returns _ _ Hpage);
      rewrite call_returns with (a := v) (s := s2) by exact Heval;
      reflexivity.
  - apply json_loads_json_dumps.
    destruct Hshape as [H|H]; subst v;
      [apply unique_keys_strings|apply unique_keys_table].
Qed.

Lemma ascii_only_app (a b : string) :
  ascii_only (a ++ b) = andb (ascii_only a) (ascii_only b).
Proof.
  induction a as [|c a IH]; [reflexivity|].
  cbn [append ascii_only]. rewrite IH, andb_assoc. reflexivity.
Qed.

Lemma ascii_only_escape_char (c : ascii) : ascii_only (json_escape_char c) = true.
Proof. destruct c as [[] [] [] [] [] [] [] []]; reflexivity. Qed.

Lemma ascii_only_quote (s : string) : ascii_only (json_quote s) = true.
Proof.
  unfold json_quote. rewrite !ascii_only_app. cbn [dquote ascii_only].
  change (printable_ascii "034") with true. cbn [andb]. rewrite andb_true_r.
  induction s as [|c s IH]; [reflexivity|].
  cbn [json_escape]. rewrite ascii_only_app, ascii_only_escape_char, IH. reflexivity.
Qed.

Lemma ascii_only_uint (u : Decimal.uint) : ascii_only (NilEmpty.string_of_uint u) = true.
Proof.
  induction u as [|u IH|u IH|u IH|u IH|u IH|u IH|u IH|u IH|u IH|u IH];
    cbn [NilEmpty.string_of_uint ascii_only]; [reflexivity|..];
    rewrite IH; reflexivity.
Qed.

Lemma ascii_only_str_int (z : Z) : ascii_only (str_int z) = true.
Proof.
  unfold str_int.
  assert (H : forall u, ascii_only (NilZero.string_of_uint u) = true).
  { intros u. destruct u; try apply ascii_only_uint. reflexivity. }
  destruct (Z.to_int z) as [u|u]; cbn [NilZero.string_of_int].
  - apply H.
  - cbn [ascii_only]. rewrite H. reflexivity.
Qed.

Lemma ascii_only_join (parts : list string) :
  Forall (fun part => ascii_only part = true) parts ->
  ascii_only (join ", " parts) = true.
Proof.
  induction 1 as [|x l Hx Hl IH]; [reflexivity|].
  destruct l as [|y l]; [exact Hx|].
  rewrite join_cons2, !ascii_only_app, Hx, IH. reflexivity.
Qed.

(** With the default [ensure_ascii], the text of every value is made of
    printable ASCII characters only. *)
Lemma ascii_only_json_dumps (v : PyValue) : ascii_only (json_dumps v) = true.
Proof.
  induction v as [|b|z|s|items IH|pairs IH] using PyValue_nested_ind.
  - reflexivity.
  - destruct b; reflexivity.
  - apply ascii_only_str_int.
  - apply ascii_only_quote.
  - cbn [json_dumps]. rewrite !ascii_only_app, ascii_only_join; [reflexivity|].
    induction IH as [|x l Hx _ IHl]; constructor; assumption.
  - rewrite json_dumps_dict, !ascii_only_app, ascii_only_join; [reflexivity|].
    induction IH as [|x l Hx _ IHl]; constructor; [|assumption].
    unfold member_text. rewrite !ascii_only_app, ascii_only_quote, Hx. reflexivity.
Qed.

(** X21.  The content of an extraction handler is plain ASCII whatever
    the page holds: every character outside [' '..'~'] (and the quote
    and the backslash) in an address or a cell reaches the caller as an
    escape sequence. *)
Theorem extraction_content_is_ascii
    (a : Action) (script : string) (w : World) (p : Page) (s1 s2 : St) (v : PyValue) :
  extraction_script a = Some script ->
  get_current_page (ext w) = (Ret p, s1) ->
  evaluate p script s1 = (Ret v, s2) ->
  exists content : string,
    invoke a w = (Ret (Success content), with_ext w s2)
    /\ ascii_only content = true.
Proof.
  intros Hscript Hpage Heval. exists (json_dumps v). split.
  - destruct a; try discriminate Hscript; cbn [extraction_script] in Hscript;
      inversion Hscript; subst; cbn [invoke];
      match goal with |- ?m _ = _ => let h := head_symbol m in unfold h end;
      unfold bind, try_except;
      rewrite (call_returns _ _ Hpage);
      rewrite call_returns with (a := v) (s := s2) by exact Heval;
      reflexivity.
  - apply ascii_only_json_dumps.
Qed.

(** X22.  [set_cookies] on the [json.dumps] text of a list of cookies
    (dictionaries of strings and booleans under distinct keys) hands the
    driver exactly that list: when [add_cookies] accepts it, the result
    is ["Cookies set"]. *)
Theorem set_cookies_passes_decoded_cookies
    (v : PyValue) (w : World) (p : Page) (s1 s2 : St) :
  cookie_list v = true ->
  get_current_page (ext w) = (Ret p, s1) ->
  add_cookies p v s1 = (Ret tt, s2) ->
  set_cookies (json_dumps v) w = (Ret (Success "Cookies set"), with_ext w s2).
Proof.
  intros Hck Hpage Hadd. unfold set_cookies, bind at 1.
  rewrite (call_returns _ _ Hpage). unfold try_except, bind, lift.
  rewrite (json_loads_json_dumps v (unique_keys_cookie_list v Hck)). unfold ret at 1.
  rewrite call_returns with (a := tt) (s := s2) by exact Hadd.
  reflexivity.
Qed.

Lemma length_b64encode (bs : list byte) :
  List.length (b64encode bs) = (4 * ((List.length bs + 2) / 3))%nat.
Proof.
  induction bs as [| x | x y | x y z l IH] using list_ind3; try reflexivity.
  cbn [b64encode List.length]. rewrite IH.
  replace (S (S (S (List.length l))) + 2)%nat with (List.length l + 2 + 1 * 3)%nat by lia.
  rewrite Nat.div_add by lia. lia.
Qed.

Lemma length_string_of_list_byte (cs : list byte) :
  String.length (string_of_list_byte cs) = List.length cs.
Proof.
  induction cs as [|c cs IH]; [reflexivity|].
  rewrite string_of_list_byte_cons. cbn [String.length List.length]. rewrite IH.
  reflexivity.
Qed.

(** X23.  The content of a screenshot result is 22 characters of prefix
    and four characters for every three bytes of the image, the last
    group rounded up. *)
Theorem screenshot_content_length
    (full_page : bool) (w : World) (p : Page) (s1 s2 : St) (bs : list byte) :
  get_current_page (ext w) = (Ret p, s1) ->
  screenshot p full_page s1 = (Ret bs, s2) ->
  exists content : string,
    (if full_page then take_full_page_screenshot else take_screenshot) w =
      (Ret (Success content), with_ext w s2)
    /\ String.length content = (22 + 4 * ((List.length bs + 2) / 3))%nat.
Proof.
  intros Hpage Hshot.
  exists (data_url_prefix ++ string_of_list_byte (b64encode bs)). split.
  - destruct full_page.
    + unfold take_full_page_screenshot, bind, try_except.
      rewrite (call_returns _ _ Hpage).
      rewrite call_returns with (a := bs) (s := s2) by exact Hshot.
      unfold bytes_decode. rewrite decode_utf8_b64encode. reflexivity.
    + unfold take_screenshot, bind.
      rewrite (call_returns _ _ Hpage).
      rewrite call_returns with (a := bs) (s := s2) by exact Hshot.
      unfold bytes_decode. rewrite decode_utf8_b64encode. reflexivity.
  - rewrite length_append, length_string_of_list_byte, length_b64encode. reflexivity.
Qed.

End PayloadRoundTrips.

(* ================================================================== *)
(** ** Runs of the further properties *)

Lemma guarded_handlers_catch_exceptions_witness :
  exists (r : ActionResult) (w' : @World (Journal (faulty_field "#user"))),
    invoke (Input_text "#user" "ann") (journal_world (faulty_field "#user")) = (Ret r, w').
Proof.
  apply (@guarded_handlers_catch_exceptions (Journal (faulty_field "#user"))
           (Input_text "#user" "ann") (journal_world (faulty_field "#user")) tt []);
    reflexivity.
Defined.

Lemma page_lookup_failure_propagates_witness :
  invoke (Click_element "#go") (journal_world faulty_page) =
    (Raise (boom "page"), journal_world faulty_page).
Proof.
  apply (@page_lookup_failure_propagates (Journal faulty_page) (Click_element "#go")
           (journal_world faulty_page) (boom "page") []);
    reflexivity.
Defined.

Lemma unguarded_handlers_never_return_failure_witness :
  error (Success "Tab closed") = None
  /\ is_set (extracted_content (Success "Tab closed")) = true.
Proof.
  apply (@unguarded_handlers_never_return_failure Sim Close_tab
           (sim_world sim_state) (Success "Tab closed") (sim_world sim_state));
    reflexivity.
Defined.

Lemma retry_negative_never_invokes_witness :
  retry_failed_action "click_element" (-2)
    (sim_world (sim_with_registry [Answer_success "never used"])) =
    (Ret (Failure "Action 'click_element' failed after -2 retries"),
     sim_world (sim_with_registry [Answer_success "never used"])).
Proof.
  apply (@retry_negative_never_invokes Sim "click_element" (-2)
           (sim_world (sim_with_registry [Answer_success "never used"]))).
  lia.
Defined.

Lemma set_cookies_rejects_malformed_text_witness :
  exists message : string,
    set_cookies "[{'name': 'sid'}]" (journal_world no_faults) =
      (Ret (Failure message), journal_world no_faults).
Proof.
  apply (@set_cookies_rejects_malformed_text (Journal no_faults) "[{'name': 'sid'}]"
           (journal_world no_faults) tt []);
    reflexivity.
Defined.

Lemma fill_and_submit_form_needs_an_object_witness :
  fill_and_submit_form "#f" "[1, 2]" (journal_world no_faults) =
    (Ret (Failure "'list' object has no attribute 'items'"), journal_world no_faults).
Proof.
  apply (@fill_and_submit_form_needs_an_object (Journal no_faults) "#f" "[1, 2]"
           (journal_world no_faults) tt [] (PList [PInt 1; PInt 2]));
    [reflexivity|reflexivity|discriminate].
Defined.

Lemma fill_and_submit_form_fills_then_submits_witness :
  fill_and_submit_form "#f" (json_dumps (PDict login_fields)) (journal_world no_faults) =
    (Ret (Success "Form filled and submitted"),
     @mkWorld (Journal no_faults)
       ["fill " ++ field_selector "#f" "user"; "fill " ++ field_selector "#f" "pw";
        "fill " ++ field_selector "#f" "note"; "click " ++ submit_selector "#f"]
       [] []).
Proof.
  apply (@fill_and_submit_form_fills_then_submits (Journal no_faults) "#f"
           (json_dumps (PDict login_fields)) (journal_world no_faults) tt []
           ["fill " ++ field_selector "#f" "user"; "fill " ++ field_selector "#f" "pw";
            "fill " ++ field_selector "#f" "note"]
           ["fill " ++ field_selector "#f" "user"; "fill " ++ field_selector "#f" "pw";
            "fill " ++ field_selector "#f" "note"; "click " ++ submit_selector "#f"]
           login_fields).
  - reflexivity.
  - reflexivity.
  - repeat (eapply fills_next; [reflexivity|]). apply fills_none.
  - reflexivity.
Defined.

Lemma fill_and_submit_form_stops_at_first_failure_witness :
  fill_and_submit_form "#f" (json_dumps (PDict login_fields))
    (journal_world (faulty_field (field_selector "#f" "pw"))) =
    (Ret (Failure "boom fill"),
     @mkWorld (Journal (faulty_field (field_selector "#f" "pw")))
       ["fill " ++ field_selector "#f" "user"; "fill " ++ field_selector "#f" "pw"]
       [] []).
Proof.
  apply (@fill_and_submit_form_stops_at_first_failure
           (Journal (faulty_field (field_selector "#f" "pw"))) "#f"
           (json_dumps (PDict login_fields))
           (journal_world (faulty_field (field_selector "#f" "pw"))) tt []
           ["fill " ++ field_selector "#f" "user"]
           ["fill " ++ field_selector "#f" "user"; "fill " ++ field_selector "#f" "pw"]
           [("user", PStr "ann")] [("note", PStr "hi")] "pw" (PStr "s3cret")
           (boom "fill")).
  - reflexivity.
  - reflexivity.
  - eapply fills_next; [reflexivity|]. apply fills_none.
  - reflexivity.
Defined.

Lemma handle_popup_unknown_action_registers_nothing_witness :
  handle_popup "ignore" (journal_world no_faults) =
    (Ret (Success "Popup handled: ignore"), journal_world no_faults).
Proof.
  apply (@handle_popup_unknown_action_registers_nothing (Journal no_faults) "ignore"
           (journal_world no_faults) tt []);
    [reflexivity|discriminate|discriminate].
Defined.

Lemma download_file_without_path_does_not_save_witness :
  download_file "https://files.example/a.zip" (Some "") (journal_world no_faults) =
    (Ret (Success "File downloaded"),
     @mkWorld (Journal no_faults) ["goto https://files.example/a.zip"] [] []).
Proof.
  apply (@download_file_without_path_does_not_save (Journal no_faults)
           "https://files.example/a.zip" (Some "") (journal_world no_faults)
           tt tt tt [] [] ["goto https://files.example/a.zip"]
           ["goto https://files.example/a.zip"] ["goto https://files.example/a.zip"]);
    first [reflexivity | right; reflexivity].
Defined.

Lemma switch_to_iframe_reports_missing_frame_witness :
  switch_to_iframe "#frame" (journal_world no_iframe) =
    (Ret (Failure "Iframe not found"), journal_world no_iframe).
Proof.
  apply (@switch_to_iframe_reports_missing_frame (Journal no_iframe) "#frame"
           (journal_world no_iframe) tt [] []);
    reflexivity.
Defined.

Lemma call_external_api_post_without_body_sends_nothing_witness :
  exists (message : string) (w' : @World (Journal no_faults)),
    call_external_api "https://api.example/items" "POST" (Some "{name: 1}")
      (journal_world no_faults) =
      (Ret (Failure message), w')
    /\ events w' = events (journal_world no_faults).
Proof.
  apply (@call_external_api_post_without_body_sends_nothing (Journal no_faults)
           "https://api.example/items" (Some "{name: 1}") (journal_world no_faults)).
  right. exists "{name: 1}". split; reflexivity.
Defined.

Lemma call_external_api_get_returns_body_witness :
  call_external_api "https://api.example/items" "GET" None (journal_world no_faults) =
    (Ret (Success "body"),
     @mkWorld (Journal no_faults) ["GET https://api.example/items"] []
       [EvGet "https://api.example/items"]).
Proof.
  apply (@call_external_api_get_returns_body (Journal no_faults)
           "https://api.example/items" None (journal_world no_faults)
           tt tt "body" [] [] ["GET https://api.example/items"]
           ["GET https://api.example/items"] ["GET https://api.example/items"]
           ["GET https://api.example/items"]);
    reflexivity.
Defined.

Lemma call_external_api_post_sends_decoded_body_witness :
  call_external_api "https://api.example/items" "POST" (Some "[1, 2]")
    (journal_world no_faults) =
    (Ret (Success "body"),
     @mkWorld (Journal no_faults) ["POST https://api.example/items"] []
       [EvPost "https://api.example/items" (PList [PInt 1; PInt 2])]).
Proof.
  apply (@call_external_api_post_sends_decoded_body (Journal no_faults)
           "https://api.example/items" "[1, 2]" (PList [PInt 1; PInt 2])
           (journal_world no_faults)
           tt tt "body" [] [] ["POST https://api.example/items"]
           ["POST https://api.example/items"] ["POST https://api.example/items"]
           ["POST https://api.example/items"]);
    reflexivity.
Defined.

Lemma get_cookies_content_is_not_json_witness :
  get_cookies
    (sim_world (sim_with_jar [PDict [("name", PStr "sid"); ("secure", PBool false)]])) =
    (Ret (Success "[{'name': 'sid', 'secure': False}]"),
     sim_world (sim_with_jar [PDict [("name", PStr "sid"); ("secure", PBool false)]]))
  /\ json_loads "[{'name': 'sid', 'secure': False}]" = Raise JSONDecodeError.
Proof.
  apply (@get_cookies_content_is_not_json Sim
           (sim_world (sim_with_jar [PDict [("name", PStr "sid"); ("secure", PBool false)]]))
           tt
           (sim_with_jar [PDict [("name", PStr "sid"); ("secure", PBool false)]])
           (sim_with_jar [PDict [("name", PStr "sid"); ("secure", PBool false)]])
           "name" (PStr "sid") [("secure", PBool false)] []);
    reflexivity.
Defined.

Lemma extraction_content_reads_back_witness :
  invoke (Extract_table_data "#stock")
    (sim_world (sim_with_eval (Ret (table_value sample_table)))) =
    (Ret (Success (json_dumps (table_value sample_table))),
     sim_world (sim_with_eval (Ret (table_value sample_table))))
  /\ json_loads (json_dumps (table_value sample_table)) = Ret (table_value sample_table).
Proof.
  apply (@extraction_content_reads_back Sim (Extract_table_data "#stock")
           (table_script "#stock")
           (sim_world (sim_with_eval (Ret (table_value sample_table))))
           tt
           (sim_with_eval (Ret (table_value sample_table)))
           (sim_with_eval (Ret (table_value sample_table)))
           (table_value sample_table) [] sample_table);
    first [reflexivity | right; reflexivity].
Defined.

Lemma extraction_content_is_ascii_witness :
  exists content : string,
    invoke Extract_all_images
      (sim_world (sim_with_eval
         (Ret (PList [PStr ("https://a.example/caf" ++ String "233"%char ".png")])))) =
      (Ret (Success content),
       sim_world (sim_with_eval
         (Ret (PList [PStr ("https://a.example/caf" ++ String "233"%char ".png")]))))
    /\ ascii_only content = true.
Proof.
  apply (@extraction_content_is_ascii Sim Extract_all_images images_script
           (sim_world (sim_with_eval
              (Ret (PList [PStr ("https://a.example/caf" ++ String "233"%char ".png")]))))
           tt
           (sim_with_eval
              (Ret (PList [PStr ("https://a.example/caf" ++ String "233"%char ".png")])))
           (sim_with_eval
              (Ret (PList [PStr ("https://a.example/caf" ++ String "233"%char ".png")])))
           (PList [PStr ("https://a.example/caf" ++ String "233"%char ".png")]));
    reflexivity.
Defined.

Lemma set_cookies_passes_decoded_cookies_witness :
  set_cookies (json_dumps sample_cookies) (sim_world sim_state) =
    (Ret (Success "Cookies set"),
     sim_world (sim_with_jar [PDict [("name", PStr "sid"); ("value", PStr "abc");
                                      ("url", PStr "https://example.com")]])).
Proof.
  apply (@set_cookies_passes_decoded_cookies Sim sample_cookies (sim_world sim_state) tt
           sim_state
           (sim_with_jar [PDict [("name", PStr "sid"); ("value", PStr "abc");
                                 ("url", PStr "https://example.com")]]));
    reflexivity.
Defined.

Lemma screenshot_content_length_witness :
  exists content : string,
    take_full_page_screenshot
      (sim_world (sim_with_image (Ret (list_byte_of_string "PNG!")))) =
      (Ret (Success content),
       sim_world (sim_with_image (Ret (list_byte_of_string "PNG!"))))
    /\ String.length content = 30%nat.
Proof.
  apply (@screenshot_content_length Sim true
           (sim_world (sim_with_image (Ret (list_byte_of_string "PNG!"))))
           tt
           (sim_with_image (Ret (list_byte_of_string "PNG!")))
           (sim_with_image (Ret (list_byte_of_string "PNG!")))
           (list_byte_of_string "PNG!"));
    reflexivity.
Defined.
